(** * iolib: a binary stream writer (src/iolib.py)

    A shallow embedding of the class [BinaryStreamWriter] together with the
    parts of the Python runtime it calls: [struct.pack] for the integer
    format codes, the [ascii] and [utf-8] codecs of [str.encode], and the
    buffered binary file object returned by [open(path, "wb")].

    Python values are modelled as follows.
    - [int] is [Z]; [bytes] is [list byte].
    - The payload [str] of the string writers is a list of Unicode code
      points ([list N]); the short ASCII strings the class builds itself
      (the byte-order prefix and the [struct] format) and the path are
      [string].
    - A raised exception is the [Raise] branch of [result]; a method is a
      function from the writer to a [result] carrying the returned value
      and the writer after the call. *)

From Stdlib Require Import ZArith NArith List String Ascii Bool Lia.
From coqutil Require Import Byte Word.LittleEndianList.
Import ListNotations.

Local Open Scope Z_scope.

(** ** Exceptions and results *)

Inductive value_error : Set :=
| ClosedFile          (* "write to closed file", "seek of closed file" *)
| UnsupportedWhence   (* "whence value %d unsupported" *)
| OffsetOutOfRange.   (* "cannot fit 'int' into an offset-sized integer" *)

Inductive exn : Set :=
| AttributeError                    (* attribute looked up on [None] *)
| StructError                       (* [struct.error] *)
| UnicodeEncodeError
| ValueError (why : value_error)
| OverflowError                     (* an [int] too large for a C [int] *)
| OSError.

Inductive result (A : Type) : Type :=
| Ok (a : A)
| Raise (e : exn).

Arguments Ok {A} a.
Arguments Raise {A} e.

Definition bind {A B} (m : result A) (k : A -> result B) : result B :=
  match m with
  | Ok a => k a
  | Raise e => Raise e
  end.

Notation "x <- m ;; k" := (bind m (fun x => k))
  (at level 61, m at next level, right associativity).

(** ** The host

    What the class leaves to the machine it runs on: the native byte order
    and the size of a C [long] (used by [struct] in native mode only),
    which paths the operating system lets a process create or truncate,
    the largest file offset the file system accepts, and the seek origins
    the host adds to the three standard ones (SEEK_DATA and SEEK_HOLE on
    Linux): [lseek_extra whence data offset] is [None] for an origin the
    host does not have, and the answer of the host otherwise. *)

Record Host : Type := {
  native_little : bool;
  sizeof_long : nat;
  creatable : string -> bool;
  max_offset : Z;
  lseek_extra : Z -> list byte -> Z -> option (result Z)
}.

(** ** struct.pack and struct.unpack, integer codes

    The fragment of [struct] the writer reaches: a format made of an
    optional byte-order character and one of the integer codes b, B, h, H,
    i, I, l, L, applied to one [int]. [unpack] is the decoder of the same
    module; the writer never calls it, the round trip is stated with it. *)

Definition bytes := list byte.

Definition int_min (size : nat) (signed : bool) : Z :=
  if signed then - 2 ^ (Z.of_nat size * 8 - 1) else 0.

Definition int_max (size : nat) (signed : bool) : Z :=
  if signed then 2 ^ (Z.of_nat size * 8 - 1) - 1 else 2 ^ (Z.of_nat size * 8) - 1.

(** The range check, then the bytes of the two's complement pattern, least
    significant first for little-endian and reversed for big-endian. *)
Definition pack_int (size : nat) (signed little : bool) (n : Z) : result bytes :=
  if (int_min size signed <=? n) && (n <=? int_max size signed)
  then Ok (if little then le_split size n else rev (le_split size n))
  else Raise StructError.

Definition unpack_int (size : nat) (signed little : bool) (b : bytes) : result Z :=
  if Nat.eqb (List.length b) size
  then
    let u := le_combine (if little then b else rev b) in
    Ok (if signed && (2 ^ (Z.of_nat size * 8 - 1) <=? u)
        then u - 2 ^ (Z.of_nat size * 8) else u)
  else Raise StructError.

Section Struct.
Variable host : Host.

(** The optional first character of a format: byte order (little?) and
    whether sizes are the native ones; the rest of the format. *)
Definition byte_order (fmt : string) : bool * bool * string :=
  match fmt with
  | String "<" rest => (true, false, rest)
  | String ">" rest => (false, false, rest)
  | String "!" rest => (false, false, rest)
  | String "=" rest => (native_little host, false, rest)
  | String "@" rest => (native_little host, true, rest)
  | _ => (native_little host, true, fmt)
  end.

(** Size and signedness of an integer format code. *)
Definition int_code (native : bool) (c : ascii) : option (nat * bool) :=
  match c with
  | "b"%char => Some (1%nat, true)
  | "B"%char => Some (1%nat, false)
  | "h"%char => Some (2%nat, true)
  | "H"%char => Some (2%nat, false)
  | "i"%char => Some (4%nat, true)
  | "I"%char => Some (4%nat, false)
  | "l"%char => Some (if native then sizeof_long host else 4%nat, true)
  | "L"%char => Some (if native then sizeof_long host else 4%nat, false)
  | _ => None
  end.

(** [pack(fmt, n)] for a format of one integer code. *)
Definition pack (fmt : string) (n : Z) : result bytes :=
  let '(little, native, codes) := byte_order fmt in
  match codes with
  | String c EmptyString =>
      match int_code native c with
      | Some (size, signed) => pack_int size signed little n
      | None => Raise StructError
      end
  | _ => Raise StructError
  end.

(** [unpack(fmt, b)[0]] for a format of one integer code. *)
Definition unpack (fmt : string) (b : bytes) : result Z :=
  let '(little, native, codes) := byte_order fmt in
  match codes with
  | String c EmptyString =>
      match int_code native c with
      | Some (size, signed) => unpack_int size signed little b
      | None => Raise StructError
      end
  | _ => Raise StructError
  end.
End Struct.

(** ** str.encode *)

Definition text := list N.

Definition byte_of_N (c : N) : byte := byte.of_Z (Z.of_N c).

Fixpoint encode_ascii (s : text) : result bytes :=
  match s with
  | [] => Ok []
  | c :: rest =>
      if (c <? 128)%N
      then (bs <- encode_ascii rest ;; Ok (byte_of_N c :: bs))
      else Raise UnicodeEncodeError
  end.

Definition utf8_char (c : N) : result bytes :=
  if (c <? 0x80)%N then Ok [byte_of_N c]
  else if (c <? 0x800)%N then
    Ok [byte_of_N (N.lor 0xC0 (N.shiftr c 6));
        byte_of_N (N.lor 0x80 (N.land c 0x3F))]
  else if (0xD800 <=? c)%N && (c <? 0xE000)%N then Raise UnicodeEncodeError
  else if (c <? 0x10000)%N then
    Ok [byte_of_N (N.lor 0xE0 (N.shiftr c 12));
        byte_of_N (N.lor 0x80 (N.land (N.shiftr c 6) 0x3F));
        byte_of_N (N.lor 0x80 (N.land c 0x3F))]
  else if (c <? 0x110000)%N then
    Ok [byte_of_N (N.lor 0xF0 (N.shiftr c 18));
        byte_of_N (N.lor 0x80 (N.land (N.shiftr c 12) 0x3F));
        byte_of_N (N.lor 0x80 (N.land (N.shiftr c 6) 0x3F));
        byte_of_N (N.lor 0x80 (N.land c 0x3F))]
  else Raise UnicodeEncodeError.

Fixpoint encode_utf8 (s : text) : result bytes :=
  match s with
  | [] => Ok []
  | c :: rest =>
      b <- utf8_char c ;; bs <- encode_utf8 rest ;; Ok (b ++ bs)
  end.

(** ** The file object of open(path, "wb")

    What a caller can observe of the buffered binary writer: the bytes the
    file holds once they are flushed, the cursor, and whether the object is
    closed. A write at the cursor replaces what is there and extends the
    file; a write past the end leaves a gap of zero bytes. *)

Record FileObject : Type := {
  content : bytes;
  position : nat;
  closed : bool
}.

Definition fresh_file : FileObject :=
  {| content := []; position := 0; closed := false |}.

(** The file extended with zero bytes up to offset [pos], when it is
    shorter. *)
Definition padded (old : bytes) (pos : nat) : bytes :=
  old ++ repeat Byte.x00 (pos - List.length old).

(** The bytes [b] stored at offset [pos]. *)
Definition overwrite (old : bytes) (pos : nat) (b : bytes) : bytes :=
  firstn pos (padded old pos) ++ b ++ skipn (pos + List.length b) old.

Definition file_write (f : FileObject) (b : bytes)
  : result (Z * FileObject) :=
  if closed f then Raise (ValueError ClosedFile)
  else
    Ok (Z.of_nat (List.length b),
        match b with
        | [] => f
        | _ =>
            {| content := overwrite (content f) (position f) b;
               position := position f + List.length b;
               closed := false |}
        end).

Definition SEEK_BEGINNING : Z := 0.
Definition SEEK_CURRENT : Z := 1.
Definition SEEK_END : Z := 2.

(** The values a C [int] and a 64-bit file offset can hold. *)
Definition fits_c_int (z : Z) : bool := (- 2 ^ 31 <=? z) && (z <? 2 ^ 31).

Definition fits_off_t (z : Z) : bool := (- 2 ^ 63 <=? z) && (z <? 2 ^ 63).

(** The largest offset a seek may land on: what the file system accepts,
    and in any case every offset inside the file. *)
Definition offset_limit (host : Host) (f : FileObject) : Z :=
  Z.max (max_offset host) (Z.of_nat (List.length (content f))).

(** Where a seek would land: [None] when the origin is not supported. *)
Definition seek_target (host : Host) (f : FileObject) (offset whence : Z)
  : option (result Z) :=
  if whence =? SEEK_BEGINNING then Some (Ok offset)
  else if whence =? SEEK_CURRENT then Some (Ok (Z.of_nat (position f) + offset))
  else if whence =? SEEK_END
  then Some (Ok (Z.of_nat (List.length (content f)) + offset))
  else lseek_extra host whence (content f) offset.

(** [whence] is converted to a C [int] first; then the origin is checked,
    then that the file is open, then that the offset fits the offset type;
    a target that is negative or beyond the limit is refused by the
    operating system. *)
Definition file_seek (host : Host) (f : FileObject) (offset whence : Z)
  : result (Z * FileObject) :=
  if negb (fits_c_int whence) then Raise OverflowError
  else
    match seek_target host f offset whence with
    | None => Raise (ValueError UnsupportedWhence)
    | Some landing =>
        if closed f then Raise (ValueError ClosedFile)
        else if negb (fits_off_t offset)
        then Raise (ValueError OffsetOutOfRange)
        else
          target <- landing ;;
          if (target <? 0) || (offset_limit host f <? target)
          then Raise OSError
          else Ok (target,
                   {| content := content f;
                      position := Z.to_nat target;
                      closed := false |})
    end.

(** The file object once closed. *)
Definition closed_file (f : FileObject) : FileObject :=
  {| content := content f; position := position f; closed := true |}.

(** Closing twice is allowed. *)
Definition file_close (f : FileObject) : result (unit * FileObject) :=
  Ok (tt, closed_file f).

(** ** BinaryStreamWriter *)

Definition LITTLE_ENDIAN : Z := 0.
Definition BIG_ENDIAN : Z := 1.

Record BinaryStreamWriter : Type := {
  output_path : string;
  fp : option FileObject;
  endian : string
}.

(** Assignment to the attribute [__fp]. *)
Definition set_fp (self : BinaryStreamWriter) (h : option FileObject)
  : BinaryStreamWriter :=
  {| output_path := output_path self; fp := h; endian := endian self |}.

(** [self.__fp.m(arg)]: the attribute [m] is looked up on [self.__fp]
    first, then the argument is evaluated, then the method runs on the file
    object, which the writer keeps. *)
Definition fp_call {A B} (self : BinaryStreamWriter) (arg : result A)
    (m : FileObject -> A -> result (B * FileObject))
  : result (B * BinaryStreamWriter) :=
  match fp self with
  | None => Raise AttributeError
  | Some f =>
      a <- arg ;;
      r <- m f a ;;
      Ok (fst r, set_fp self (Some (snd r)))
  end.

Definition __init__ (output_path : string) (endian : Z) : BinaryStreamWriter :=
  {| output_path := output_path;
     fp := None;
     endian := if endian =? LITTLE_ENDIAN then "<" else ">" |}.

Section Writer.
Variable host : Host.

Definition write_byte (self : BinaryStreamWriter) (n : Z) :=
  buf <- pack host (endian self ++ "b") n ;;
  fp_call self (Ok buf) file_write.

Definition write_ubyte (self : BinaryStreamWriter) (n : Z) :=
  buf <- pack host (endian self ++ "B") n ;;
  fp_call self (Ok buf) file_write.

Definition write_short (self : BinaryStreamWriter) (n : Z) :=
  buf <- pack host (endian self ++ "h") n ;;
  fp_call self (Ok buf) file_write.

Definition write_ushort (self : BinaryStreamWriter) (n : Z) :=
  buf <- pack host (endian self ++ "H") n ;;
  fp_call self (Ok buf) file_write.

Definition write_int (self : BinaryStreamWriter) (n : Z) :=
  buf <- pack host (endian self ++ "i") n ;;
  fp_call self (Ok buf) file_write.

Definition write_uint (self : BinaryStreamWriter) (n : Z) :=
  buf <- pack host (endian self ++ "I") n ;;
  fp_call self (Ok buf) file_write.

Definition write_long (self : BinaryStreamWriter) (n : Z) :=
  buf <- pack host (endian self ++ "l") n ;;
  fp_call self (Ok buf) file_write.

Definition write_ulong (self : BinaryStreamWriter) (n : Z) :=
  buf <- pack host (endian self ++ "L") n ;;
  fp_call self (Ok buf) file_write.

Definition write_ascii_string (self : BinaryStreamWriter) (s : text) :=
  fp_call self (encode_ascii s) file_write.

Definition write_ascii_nt_string (self : BinaryStreamWriter) (s : text) :=
  fp_call self (b <- encode_ascii s ;; Ok (b ++ repeat Byte.x00 1)) file_write.

Definition write_utf8_string (self : BinaryStreamWriter) (s : text) :=
  fp_call self (encode_utf8 s) file_write.

Definition write_utf8_nt_string (self : BinaryStreamWriter) (s : text) :=
  fp_call self (b <- encode_utf8 s ;; Ok (b ++ repeat Byte.x00 1)) file_write.

Definition write (self : BinaryStreamWriter) (b : bytes) :=
  fp_call self (Ok b) file_write.

(** [open(path, "wb")] for a path that names a file (a [str] without a NUL
    character): a new empty file object, or the error of the operating
    system. The file object a writer held before is dropped. *)
Definition builtin_open (path : string) : result FileObject :=
  if creatable host path then Ok fresh_file else Raise OSError.

Definition open (self : BinaryStreamWriter)
  : result (BinaryStreamWriter * BinaryStreamWriter) :=
  f <- builtin_open (output_path self) ;;
  Ok (set_fp self (Some f), set_fp self (Some f)).

Definition close (self : BinaryStreamWriter) :=
  fp_call self (Ok tt) (fun f _ => file_close f).

Definition seek (self : BinaryStreamWriter) (offset whence : Z) :=
  fp_call self (Ok (offset, whence))
    (fun f a => file_seek host f (fst a) (snd a)).

Definition skip (self : BinaryStreamWriter) (count : Z) :=
  fp_call self (Ok (count, SEEK_CURRENT))
    (fun f a => file_seek host f (fst a) (snd a)).

Definition __enter__ (self : BinaryStreamWriter) := open self.

Definition __exit__ (self : BinaryStreamWriter) := close self.
End Writer.

(** ** Vocabulary of the statements *)

(** The eight fixed-width numeric writes, their format codes, and the
    widths and signedness the specification declares for them. *)
Inductive numeric_op : Set :=
| Byte_ | UByte | Short | UShort | Int | UInt | Long | ULong.

Definition call (host : Host) (op : numeric_op)
  : BinaryStreamWriter -> Z -> result (Z * BinaryStreamWriter) :=
  match op with
  | Byte_ => write_byte host
  | UByte => write_ubyte host
  | Short => write_short host
  | UShort => write_ushort host
  | Int => write_int host
  | UInt => write_uint host
  | Long => write_long host
  | ULong => write_ulong host
  end.

Definition code (op : numeric_op) : ascii :=
  match op with
  | Byte_ => "b" | UByte => "B"
  | Short => "h" | UShort => "H"
  | Int => "i" | UInt => "I"
  | Long => "l" | ULong => "L"
  end%char.

Definition declared_width (op : numeric_op) : nat :=
  match op with
  | Byte_ | UByte => 1
  | Short | UShort => 2
  | Int | UInt | Long | ULong => 4
  end.

Definition declared_signed (op : numeric_op) : bool :=
  match op with
  | Byte_ | Short | Int | Long => true
  | UByte | UShort | UInt | ULong => false
  end.

(** The writer built by [__init__ path e] once its attribute [__fp] holds
    the file object [f]. *)
Definition opened (path : string) (e : Z) (f : FileObject)
  : BinaryStreamWriter :=
  set_fp (__init__ path e) (Some f).

(** The [len] bytes of the file starting at offset [start]. *)
Definition bytes_at (f : FileObject) (start len : nat) : bytes :=
  firstn len (skipn start (content f)).

(** The call with outcome [r] on the writer [self] stored exactly the bytes
    [b] at the cursor: it returned their count, the cursor moved past
    them, and what the file held before and after them is kept. *)
Definition emits (r : result (Z * BinaryStreamWriter))
    (self : BinaryStreamWriter) (b : bytes) : Prop :=
  exists f f',
    fp self = Some f /\
    r = Ok (Z.of_nat (List.length b), set_fp self (Some f')) /\
    closed f' = false /\
    position f' = (position f + List.length b)%nat /\
    bytes_at f' (position f) (List.length b) = b /\
    firstn (Nat.min (position f) (List.length (content f))) (content f')
      = firstn (position f) (content f) /\
    skipn (position f + List.length b) (content f')
      = skipn (position f + List.length b) (content f).

(** What a caller observes of a call: the value returned and the file
    object the writer holds afterwards, or the exception. *)
Definition outcome (r : result (Z * BinaryStreamWriter))
  : result (Z * option FileObject) :=
  match r with
  | Ok (k, self') => Ok (k, fp self')
  | Raise e => Raise e
  end.

(** The code points of an ASCII literal. *)
Fixpoint text_of_string (s : string) : text :=
  match s with
  | EmptyString => []
  | String c rest => N_of_ascii c :: text_of_string rest
  end.

(** The four code points of the word of the specification's example:
    c, a, f and U+00E9 (e with an acute accent). *)
Definition cafe : text := text_of_string "caf" ++ [0xE9%N].

Definition is_ascii (s : text) : Prop := Forall (fun c => (c < 128)%N) s.

Definition has_non_ascii (s : text) : Prop := Exists (fun c => (128 <= c)%N) s.

(** ** Sample hosts and files *)

(** A 64-bit Unix host and a 32-bit one. *)
Definition lp64 : Host :=
  {| native_little := true; sizeof_long := 8;
     creatable := fun p => negb (String.eqb p "");
     max_offset := 2 ^ 63 - 1;
     lseek_extra := fun whence data offset =>
       if (whence =? 3) || (whence =? 4) then
         Some (if (0 <=? offset) && (offset <? Z.of_nat (List.length data))
               then Ok (if whence =? 3 then offset
                        else Z.of_nat (List.length data))
               else Raise OSError)
       else None |}.

Definition ilp32 : Host :=
  {| native_little := true; sizeof_long := 4;
     creatable := fun p => negb (String.eqb p "");
     max_offset := 2 ^ 44 - 2 ^ 12;
     lseek_extra := fun _ _ _ => None |}.

(** A file of three bytes with the cursor on the second one. *)
Definition sample_file : FileObject :=
  {| content := [Byte.x01; Byte.x02; Byte.x03]; position := 1; closed := false |}.

(** ** Sessions

    A call of any method of the class, and a sequence of calls made one
    after the other on the same writer; the sequence stops at the first
    exception. *)

Inductive command : Type :=
| Numeric (op : numeric_op) (n : Z)
| AsciiString (s : text)
| AsciiNtString (s : text)
| Utf8String (s : text)
| Utf8NtString (s : text)
| RawWrite (b : bytes)
| Seek (offset whence : Z)
| Skip (count : Z)
| Open
| Close.

(** The writer after a call, the returned value dropped. *)
Definition after {A} (r : result (A * BinaryStreamWriter))
  : result BinaryStreamWriter :=
  x <- r ;; Ok (snd x).

Definition exec (host : Host) (c : command) (self : BinaryStreamWriter)
  : result BinaryStreamWriter :=
  match c with
  | Numeric op n => after (call host op self n)
  | AsciiString s => after (write_ascii_string self s)
  | AsciiNtString s => after (write_ascii_nt_string self s)
  | Utf8String s => after (write_utf8_string self s)
  | Utf8NtString s => after (write_utf8_nt_string self s)
  | RawWrite b => after (write self b)
  | Seek offset whence => after (seek host self offset whence)
  | Skip count => after (skip host self count)
  | Open => after (open host self)
  | Close => after (close self)
  end.

Fixpoint exec_all (host : Host) (cs : list command)
    (self : BinaryStreamWriter) : result BinaryStreamWriter :=
  match cs with
  | [] => Ok self
  | c :: rest => self' <- exec host c self ;; exec_all host rest self'
  end.

Definition is_open_command (c : command) : bool :=
  match c with Open => true | _ => false end.

Definition is_close_command (c : command) : bool :=
  match c with Close => true | _ => false end.

(** Two calls in sequence, as one outcome: the counts added, the writer
    after the second call. *)
Definition and_then (r1 : result (Z * BinaryStreamWriter))
    (m2 : BinaryStreamWriter -> result (Z * BinaryStreamWriter))
  : result (Z * BinaryStreamWriter) :=
  x1 <- r1 ;; x2 <- m2 (snd x1) ;; Ok (fst x1 + fst x2, snd x2).

(** The unsigned operation of the same width. *)
Definition unsigned_counterpart (op : numeric_op) : numeric_op :=
  match op with
  | Byte_ | UByte => UByte
  | Short | UShort => UShort
  | Int | UInt => UInt
  | Long | ULong => ULong
  end.

(** Surrogate code points, and the code points of a [str]. *)
Definition is_surrogate (c : N) : Prop := (0xD800 <= c < 0xE000)%N.

Definition valid_text (s : text) : Prop := Forall (fun c => (c < 0x110000)%N) s.

(** The number of bytes of a code point in UTF-8. *)
Definition utf8_width (c : N) : nat :=
  if (c <? 0x80)%N then 1
  else if (c <? 0x800)%N then 2
  else if (c <? 0x10000)%N then 3
  else 4.

(** * Properties *)

(** ** Integer encoding *)

Lemma pack_int_length size signed little n b :
  pack_int size signed little n = Ok b -> List.length b = size.
Proof.
  unfold pack_int.
  destruct (_ && _); [|discriminate].
  intros H; inversion H; subst; clear H.
  destruct little; rewrite ?length_rev; apply length_le_split.
Qed.

Lemma int_range_bool size signed n :
  int_min size signed <= n <= int_max size signed ->
  (int_min size signed <=? n) && (n <=? int_max size signed) = true.
Proof.
  intros [Hlo Hhi]. apply andb_true_iff; split; apply Z.leb_le; assumption.
Qed.

(** Decoding the split of [n] gives [n] back when [n] is in the range of
    the width and signedness. *)
Lemma decode_le_split size signed n :
  int_min size signed <= n <= int_max size signed ->
  (let u := le_combine (le_split size n) in
   if signed && (2 ^ (Z.of_nat size * 8 - 1) <=? u)
   then u - 2 ^ (Z.of_nat size * 8) else u) = n.
Proof.
  intros Hr. cbv zeta. rewrite le_combine_split.
  destruct size as [|k].
  - (* width 0: the unsigned range is {0}, the signed one is empty *)
    destruct signed; cbn in Hr |- *; [exfalso; lia | rewrite Z.mod_1_r; lia].
  - set (w := Z.of_nat (S k) * 8) in *.
    assert (Hw : 1 <= w) by (subst w; lia).
    assert (Hpow : 2 ^ w = 2 * 2 ^ (w - 1)).
    { rewrite <- Z.pow_succ_r by lia. f_equal. lia. }
    assert (Hpos : 0 < 2 ^ (w - 1)) by (apply Z.pow_pos_nonneg; lia).
    destruct signed; unfold int_min, int_max in Hr; fold w in Hr; cbn [andb].
    + destruct (Z_lt_le_dec n 0) as [Hneg|Hnn].
      * assert (Hm : n mod 2 ^ w = n + 2 ^ w).
        { symmetry. apply Z.mod_unique with (q := -1); lia. }
        rewrite Hm.
        destruct (Z.leb_spec (2 ^ (w - 1)) (n + 2 ^ w)); lia.
      * rewrite Z.mod_small by lia.
        destruct (Z.leb_spec (2 ^ (w - 1)) n); lia.
    + apply Z.mod_small. lia.
Qed.

Lemma unpack_pack_int size signed little n :
  int_min size signed <= n <= int_max size signed ->
  exists b, pack_int size signed little n = Ok b /\
            unpack_int size signed little b = Ok n.
Proof.
  intros Hr. unfold pack_int, unpack_int.
  rewrite (int_range_bool _ _ _ Hr).
  eexists; split; [reflexivity|].
  destruct little.
  - rewrite length_le_split, Nat.eqb_refl.
    f_equal. apply (decode_le_split _ _ _ Hr).
  - rewrite length_rev, length_le_split, Nat.eqb_refl, rev_involutive.
    f_equal. apply (decode_le_split _ _ _ Hr).
Qed.

Lemma pack_int_out_of_range size signed little n :
  ~ (int_min size signed <= n <= int_max size signed) ->
  pack_int size signed little n = Raise StructError.
Proof.
  intros Hr. unfold pack_int.
  destruct (Z.leb_spec (int_min size signed) n);
    destruct (Z.leb_spec n (int_max size signed)); cbn; try reflexivity.
  exfalso; apply Hr; split; assumption.
Qed.

(** The format a constructed writer hands to [pack]: an explicit byte-order
    prefix, hence the standard sizes, whatever the host. *)
Lemma endian_init path e :
  endian (__init__ path e) = if e =? LITTLE_ENDIAN then "<"%string else ">"%string.
Proof. reflexivity. Qed.

Lemma int_code_standard host op :
  int_code host false (code op) = Some (declared_width op, declared_signed op).
Proof. destruct op; reflexivity. Qed.

Lemma pack_constructed host path e h op n :
  pack host (endian (set_fp (__init__ path e) h) ++ String (code op) EmptyString) n
  = pack_int (declared_width op) (declared_signed op) (e =? LITTLE_ENDIAN) n.
Proof.
  cbn [set_fp endian __init__].
  destruct (e =? LITTLE_ENDIAN); destruct op; reflexivity.
Qed.

Lemma unpack_constructed host path e h op b :
  unpack host (endian (set_fp (__init__ path e) h) ++ String (code op) EmptyString) b
  = unpack_int (declared_width op) (declared_signed op) (e =? LITTLE_ENDIAN) b.
Proof.
  cbn [set_fp endian __init__].
  destruct (e =? LITTLE_ENDIAN); destruct op; reflexivity.
Qed.

Lemma call_unfold host op self n :
  call host op self n
  = (buf <- pack host (endian self ++ String (code op) EmptyString) n ;;
     write self buf).
Proof. destruct op; reflexivity. Qed.

(** ** The file object *)

Section Overwrite.
Variables (old : bytes) (pos : nat) (b : bytes).

Lemma length_padded_prefix : List.length (firstn pos (padded old pos)) = pos.
Proof.
  unfold padded. rewrite length_firstn, length_app, repeat_length. lia.
Qed.

Lemma firstn_min : firstn (Nat.min pos (List.length old)) old = firstn pos old.
Proof.
  destruct (Nat.le_gt_cases pos (List.length old)) as [H|H].
  - rewrite Nat.min_l by assumption. reflexivity.
  - rewrite Nat.min_r by lia.
    rewrite firstn_all, firstn_all2 by lia. reflexivity.
Qed.

Lemma overwrite_read :
  firstn (List.length b) (skipn pos (overwrite old pos b)) = b.
Proof.
  unfold overwrite.
  rewrite skipn_app, length_padded_prefix, Nat.sub_diag.
  rewrite skipn_all2 by (rewrite length_padded_prefix; lia).
  cbn [skipn app].
  rewrite firstn_app, Nat.sub_diag, firstn_all. cbn [firstn].
  apply app_nil_r.
Qed.

Lemma overwrite_suffix :
  skipn (pos + List.length b) (overwrite old pos b)
  = skipn (pos + List.length b) old.
Proof.
  unfold overwrite.
  rewrite skipn_app, length_padded_prefix.
  rewrite skipn_all2 by (rewrite length_padded_prefix; lia).
  replace (pos + List.length b - pos)%nat with (List.length b) by lia.
  cbn [app].
  rewrite skipn_app, skipn_all, Nat.sub_diag. reflexivity.
Qed.

Lemma overwrite_kept :
  firstn (Nat.min pos (List.length old)) (overwrite old pos b)
  = firstn pos old.
Proof.
  unfold overwrite.
  rewrite firstn_app, length_padded_prefix.
  replace (Nat.min pos (List.length old) - pos)%nat with 0%nat by lia.
  cbn [firstn]. rewrite app_nil_r, firstn_firstn.
  replace (Nat.min (Nat.min pos (List.length old)) pos)
    with (Nat.min pos (List.length old)) by lia.
  unfold padded. rewrite firstn_app.
  replace (Nat.min pos (List.length old) - List.length old)%nat
    with 0%nat by lia.
  cbn [firstn]. rewrite app_nil_r. apply firstn_min.
Qed.
End Overwrite.

(** Writing to an open file stores the bytes at the cursor. *)
Lemma fp_write_emits self f b :
  fp self = Some f -> closed f = false ->
  emits (fp_call self (Ok b) file_write) self b.
Proof.
  intros Hfp Hopen. unfold fp_call, file_write.
  rewrite Hfp. cbn [bind]. rewrite Hopen. cbn [bind fst snd].
  exists f. eexists. split; [exact Hfp|]. split; [reflexivity|].
  destruct b as [|x b'].
  - cbn [List.length]. rewrite Nat.add_0_r.
    repeat split; try assumption; try lia.
    apply firstn_min.
  - cbn [closed position content]. unfold bytes_at. cbn [content].
    repeat split.
    + apply overwrite_read.
    + apply overwrite_kept.
    + apply overwrite_suffix.
Qed.

Lemma fp_call_closed self f (arg : bytes) :
  fp self = Some f -> closed f = true ->
  fp_call self (Ok arg) file_write = Raise (ValueError ClosedFile).
Proof.
  intros Hfp Hc. unfold fp_call, file_write. rewrite Hfp. cbn [bind].
  rewrite Hc. reflexivity.
Qed.

(** ** Numeric writes *)

Lemma call_constructed host op path e h n :
  call host op (set_fp (__init__ path e) h) n
  = (buf <- pack_int (declared_width op) (declared_signed op)
              (e =? LITTLE_ENDIAN) n ;;
     write (set_fp (__init__ path e) h) buf).
Proof. rewrite call_unfold, pack_constructed. reflexivity. Qed.

Lemma call_emits host op path e f n b :
  closed f = false ->
  pack_int (declared_width op) (declared_signed op) (e =? LITTLE_ENDIAN) n = Ok b ->
  emits (call host op (opened path e f) n) (opened path e f) b.
Proof.
  intros Hopen Hpack. unfold opened.
  rewrite call_constructed, Hpack. cbn [bind].
  apply fp_write_emits with (f := f); [reflexivity | assumption].
Qed.

(** C1. Round trip: on an open writer constructed with any endianness
    argument (little-endian for 0, big-endian otherwise), each of the eight
    numeric writes of a value in the range of its width and signedness
    stores bytes which [unpack], given the same format, decodes to that
    value. *)
Theorem numeric_write_round_trip host op path e f n :
  closed f = false ->
  int_min (declared_width op) (declared_signed op) <= n
    <= int_max (declared_width op) (declared_signed op) ->
  let self := opened path e f in
  exists b,
    emits (call host op self n) self b /\
    List.length b = declared_width op /\
    unpack host (endian self ++ String (code op) EmptyString) b = Ok n.
Proof.
  intros Hopen Hr self.
  destruct (unpack_pack_int _ _ (e =? LITTLE_ENDIAN) _ Hr) as (b & Hp & Hu).
  exists b. split; [|split].
  - apply call_emits; assumption.
  - apply (pack_int_length _ _ _ _ _ Hp).
  - subst self. unfold opened. rewrite unpack_constructed. exact Hu.
Qed.

(** C6. A numeric write that succeeds returns the declared width of its
    operation. *)
Theorem numeric_write_returns_width host op path e h n k self' :
  call host op (set_fp (__init__ path e) h) n = Ok (k, self') ->
  k = Z.of_nat (declared_width op).
Proof.
  rewrite call_constructed.
  destruct (pack_int _ _ _ n) as [buf|] eqn:Hp; cbn [bind]; [|discriminate].
  apply pack_int_length in Hp.
  unfold write, fp_call. cbn [fp set_fp].
  destruct h as [f|]; [|discriminate].
  cbn [bind]. unfold file_write.
  destruct (closed f); cbn [bind fst snd]; [discriminate|].
  intros H; inversion H; subst. rewrite Hp. reflexivity.
Qed.


(** C8. [write_byte] and [write_ubyte] behave the same on a writer
    constructed little-endian and on one constructed big-endian: for every
    value and every state of the handle, the returned count and the file
    afterwards (or the exception) coincide. *)
Theorem single_byte_endianness_irrelevant host path h n :
  outcome (write_byte host (set_fp (__init__ path LITTLE_ENDIAN) h) n)
  = outcome (write_byte host (set_fp (__init__ path BIG_ENDIAN) h) n) /\
  outcome (write_ubyte host (set_fp (__init__ path LITTLE_ENDIAN) h) n)
  = outcome (write_ubyte host (set_fp (__init__ path BIG_ENDIAN) h) n).
Proof.
  change (write_byte host) with (call host Byte_).
  change (write_ubyte host) with (call host UByte).
  rewrite !call_constructed.
  unfold pack_int. cbn [declared_width le_split rev app].
  split.
  - destruct (_ && _); cbn [bind]; [|reflexivity].
    unfold write, fp_call. cbn [fp set_fp].
    destruct h as [f|]; [|reflexivity].
    cbn [bind]. destruct (file_write f _) as [[k f']|]; reflexivity.
  - destruct (_ && _); cbn [bind]; [|reflexivity].
    unfold write, fp_call. cbn [fp set_fp].
    destruct h as [f|]; [|reflexivity].
    cbn [bind]. destruct (file_write f _) as [[k f']|]; reflexivity.
Qed.

(** C4. On an open writer, [write_ushort(0x1234)] stores 0x34 0x12 when the
    writer was constructed little-endian and 0x12 0x34 when it was
    constructed big-endian. *)
Theorem write_ushort_byte_order host path f :
  closed f = false ->
  emits (write_ushort host (opened path LITTLE_ENDIAN f) 0x1234)
        (opened path LITTLE_ENDIAN f) [Byte.x34; Byte.x12] /\
  emits (write_ushort host (opened path BIG_ENDIAN f) 0x1234)
        (opened path BIG_ENDIAN f) [Byte.x12; Byte.x34].
Proof.
  intros Hopen.
  change (write_ushort host) with (call host UShort).
  split; apply call_emits; try assumption; vm_compute; reflexivity.
Qed.

(** C10. An endianness argument other than [LITTLE_ENDIAN] builds the very
    writer that [BIG_ENDIAN] builds: the prefix is ">", every numeric write
    behaves as on the big-endian writer, and on an open writer a value in
    range is stored most significant byte first. *)
Theorem nonzero_endian_is_big_endian path e :
  e <> LITTLE_ENDIAN ->
  __init__ path e = __init__ path BIG_ENDIAN /\
  endian (__init__ path e) = ">"%string /\
  (forall host op h n,
     call host op (set_fp (__init__ path e) h) n
     = call host op (set_fp (__init__ path BIG_ENDIAN) h) n) /\
  (forall host op f n,
     closed f = false ->
     int_min (declared_width op) (declared_signed op) <= n
       <= int_max (declared_width op) (declared_signed op) ->
     emits (call host op (opened path e f) n) (opened path e f)
           (rev (le_split (declared_width op) n))).
Proof.
  intros He.
  assert (Hinit : __init__ path e = __init__ path BIG_ENDIAN).
  { unfold __init__. apply Z.eqb_neq in He. rewrite He. reflexivity. }
  split; [exact Hinit|].
  split; [rewrite Hinit; reflexivity|].
  split; [intros; rewrite Hinit; reflexivity|].
  intros host op f n Hopen Hr.
  apply call_emits; [assumption|].
  unfold pack_int. rewrite (int_range_bool _ _ _ Hr).
  apply Z.eqb_neq in He. rewrite He. reflexivity.
Qed.

(** ** String writes *)

Lemma encode_ascii_cases s :
  (is_ascii s /\ encode_ascii s = Ok (map byte_of_N s)) \/
  (has_non_ascii s /\ encode_ascii s = Raise UnicodeEncodeError).
Proof.
  induction s as [|c rest IH]; cbn [encode_ascii map].
  - left. split; [constructor | reflexivity].
  - destruct (N.ltb_spec c 128) as [Hc|Hc].
    + destruct IH as [[Hall Henc]|[Hex Henc]]; rewrite Henc; cbn [bind].
      * left. split; [constructor; assumption | reflexivity].
      * right. split; [apply Exists_cons_tl; assumption | reflexivity].
    + right. split; [apply Exists_cons_hd; assumption | reflexivity].
Qed.

Lemma ascii_not_both s : is_ascii s -> has_non_ascii s -> False.
Proof.
  unfold is_ascii, has_non_ascii. intros Hall Hex.
  apply Exists_exists in Hex. destruct Hex as (c & Hin & Hc).
  rewrite Forall_forall in Hall. specialize (Hall c Hin). lia.
Qed.

Lemma encode_ascii_ok s :
  is_ascii s -> encode_ascii s = Ok (map byte_of_N s).
Proof.
  intros Hs. destruct (encode_ascii_cases s) as [[_ H]|[Hex _]];
    [exact H | destruct (ascii_not_both s Hs Hex)].
Qed.

Lemma write_ascii_string_emits self f s :
  fp self = Some f -> closed f = false -> is_ascii s ->
  emits (write_ascii_string self s) self (map byte_of_N s).
Proof.
  intros Hfp Hopen Hs.
  pose proof (fp_write_emits self f (map byte_of_N s) Hfp Hopen) as H.
  unfold write_ascii_string, fp_call in *.
  rewrite Hfp in *. rewrite (encode_ascii_ok s Hs). exact H.
Qed.

(** C5. On an open writer, [write_ascii_nt_string] of an ASCII string
    stores one byte per code point followed by a single zero byte;
    [write_ascii_string("AB")] stores 0x41 0x42 and
    [write_ascii_nt_string("AB")] stores 0x41 0x42 0x00. *)
Theorem write_ascii_nt_string_terminated path e f :
  closed f = false ->
  let self := opened path e f in
  (forall s, is_ascii s ->
     emits (write_ascii_nt_string self s) self
           (map byte_of_N s ++ [Byte.x00])) /\
  emits (write_ascii_string self (text_of_string "AB")) self
        [Byte.x41; Byte.x42] /\
  emits (write_ascii_nt_string self (text_of_string "AB")) self
        [Byte.x41; Byte.x42; Byte.x00].
Proof.
  intros Hopen self.
  assert (Hnt : forall s, is_ascii s ->
            emits (write_ascii_nt_string self s) self
                  (map byte_of_N s ++ [Byte.x00])).
  { intros s Hs.
    pose proof (fp_write_emits self f (map byte_of_N s ++ [Byte.x00])
                  eq_refl Hopen) as H.
    unfold write_ascii_nt_string, fp_call in *. cbn [fp self opened set_fp] in *.
    rewrite (encode_ascii_ok s Hs). exact H. }
  assert (HAB : is_ascii (text_of_string "AB")).
  { repeat constructor. }
  split; [exact Hnt|]. split.
  - apply (write_ascii_string_emits self f _ eq_refl Hopen HAB).
  - apply (Hnt _ HAB).
Qed.

(** C3. On an open writer, [write_ascii_string] raises the encoding error
    exactly when the string has a code point above 127, and stores one byte
    per code point otherwise; on the word [cafe] it raises, while
    [write_utf8_string] stores the UTF-8 bytes 63 61 66 C3 A9. *)
Theorem write_ascii_string_strict path e f :
  closed f = false ->
  let self := opened path e f in
  (forall s, write_ascii_string self s = Raise UnicodeEncodeError
             <-> has_non_ascii s) /\
  (forall s, is_ascii s ->
             emits (write_ascii_string self s) self (map byte_of_N s)) /\
  write_ascii_string self cafe = Raise UnicodeEncodeError /\
  emits (write_utf8_string self cafe) self
        [Byte.x63; Byte.x61; Byte.x66; Byte.xc3; Byte.xa9].
Proof.
  intros Hopen self.
  assert (Hiff : forall s, write_ascii_string self s = Raise UnicodeEncodeError
                           <-> has_non_ascii s).
  { intros s. unfold write_ascii_string, fp_call. cbn [fp self opened set_fp].
    destruct (encode_ascii_cases s) as [[Hall Henc]|[Hex Henc]];
      rewrite Henc; cbn [bind].
    - unfold file_write. rewrite Hopen. cbn [bind]. split.
      + discriminate.
      + intros Hex. destruct (ascii_not_both s Hall Hex).
    - split; [intros _; exact Hex | reflexivity]. }
  split; [exact Hiff|]. split; [|split].
  - intros s Hs. apply (write_ascii_string_emits self f s eq_refl Hopen Hs).
  - apply Hiff. unfold has_non_ascii, cafe. apply Exists_exists.
    exists 0xE9%N. split; [cbn; tauto | lia].
  - apply (fp_write_emits self f _ eq_refl Hopen).
Qed.

(** ** Positioning *)

Lemma fits_c_int_standard :
  fits_c_int SEEK_BEGINNING = true /\ fits_c_int SEEK_CURRENT = true /\
  fits_c_int SEEK_END = true.
Proof. repeat split. Qed.

Lemma file_seek_current host f count :
  closed f = false ->
  file_seek host f count SEEK_CURRENT
  = if negb (fits_off_t count) then Raise (ValueError OffsetOutOfRange)
    else if (Z.of_nat (position f) + count <? 0)
            || (offset_limit host f <? Z.of_nat (position f) + count)
    then Raise OSError
    else Ok (Z.of_nat (position f) + count,
             {| content := content f;
                position := Z.to_nat (Z.of_nat (position f) + count);
                closed := false |}).
Proof.
  intros Hopen. unfold file_seek, seek_target.
  destruct fits_c_int_standard as (_ & -> & _).
  cbn [negb Z.eqb Pos.eqb SEEK_CURRENT SEEK_BEGINNING bind].
  rewrite Hopen. destruct (fits_off_t count); reflexivity.
Qed.

Lemma file_seek_content host f offset whence r f' :
  file_seek host f offset whence = Ok (r, f') ->
  content f' = content f /\ closed f' = false /\ Z.of_nat (position f') = r.
Proof.
  unfold file_seek.
  destruct (fits_c_int whence); cbn [negb]; [|discriminate].
  destruct (seek_target host f offset whence) as [[t|]|]; try discriminate;
    destruct (closed f); try discriminate;
    destruct (fits_off_t offset); cbn [negb bind]; try discriminate.
  destruct ((t <? 0) || (offset_limit host f <? t)) eqn:Hbad; [discriminate|].
  apply orb_false_iff in Hbad. destruct Hbad as (Hneg & _).
  apply Z.ltb_ge in Hneg.
  intros Hok; inversion Hok; subst; cbn. repeat split. lia.
Qed.

(** C7. [skip(count)] is [seek(count, SEEK_CURRENT)]: the two calls have
    the same outcome on every writer and for every count; a successful skip
    returns the old position plus [count], leaves the cursor there and
    leaves the bytes of the file as they were. On an open writer the call
    raises [ValueError] when [count] does not fit the file offset type,
    [OSError] when the target is negative or beyond what the file system
    accepts, and succeeds otherwise. *)
Theorem skip_is_seek_from_current host self count :
  skip host self count = seek host self count SEEK_CURRENT /\
  (forall r self',
     skip host self count = Ok (r, self') ->
     exists f f',
       fp self = Some f /\ fp self' = Some f' /\
       content f' = content f /\
       r = Z.of_nat (position f) + count /\
       Z.of_nat (position f') = r) /\
  (forall f,
     fp self = Some f -> closed f = false ->
     skip host self count
     = if negb (fits_off_t count) then Raise (ValueError OffsetOutOfRange)
       else if (Z.of_nat (position f) + count <? 0)
               || (offset_limit host f <? Z.of_nat (position f) + count)
       then Raise OSError
       else Ok (Z.of_nat (position f) + count,
                set_fp self
                  (Some {| content := content f;
                           position := Z.to_nat (Z.of_nat (position f) + count);
                           closed := false |}))).
Proof.
  split; [reflexivity|]. split.
  - intros r self'. unfold skip, fp_call.
    destruct (fp self) as [f|] eqn:Hfp; [|discriminate].
    cbn [bind fst snd].
    destruct (file_seek host f count SEEK_CURRENT) as [[r0 f']|] eqn:Hs;
      cbn [bind fst snd]; [|discriminate].
    intros H; inversion H; subst.
    exists f, f'. cbn [fp set_fp].
    destruct (file_seek_content _ _ _ _ _ _ Hs) as (Hc & _ & Hp).
    repeat split; try assumption.
    destruct (closed f) eqn:Hcl.
    + unfold file_seek, seek_target in Hs.
      destruct fits_c_int_standard as (_ & Hfit & _). rewrite Hfit in Hs.
      cbn [negb Z.eqb Pos.eqb SEEK_CURRENT SEEK_BEGINNING] in Hs.
      rewrite Hcl in Hs. discriminate.
    + rewrite (file_seek_current host f count Hcl) in Hs.
      destruct (fits_off_t count); cbn [negb] in Hs; [|discriminate].
      destruct (_ || _); [discriminate|]. inversion Hs. reflexivity.
  - intros f Hfp Hopen. unfold skip, fp_call. rewrite Hfp.
    cbn [bind fst snd]. rewrite (file_seek_current host f count Hopen).
    destruct (fits_off_t count); cbn [negb]; [|reflexivity].
    destruct (_ || _); reflexivity.
Qed.

(** ** Lifecycle *)

Lemma close_opened path e f :
  close (opened path e f) = Ok (tt, opened path e (closed_file f)).
Proof. reflexivity. Qed.

Lemma open_constructed host path e :
  creatable host path = true ->
  open host (__init__ path e)
  = Ok (opened path e fresh_file, opened path e fresh_file).
Proof.
  intros Hc. unfold open, builtin_open. cbn [output_path __init__].
  rewrite Hc. reflexivity.
Qed.

(** C2, as the code has it. [close] on an open writer closes the file
    object and keeps it in the handle, which is therefore not [None].
    Afterwards a raw write and a skip raise [ValueError]; a seek raises
    [OverflowError] when [whence] does not fit a C [int] and [ValueError]
    otherwise; a numeric write raises [ValueError] for a value in range and
    [struct.error] otherwise; an ASCII or UTF-8 string write raises
    [ValueError] for text that encodes and [UnicodeEncodeError] otherwise.
    No call succeeds. *)
Theorem close_keeps_closed_handle path e f :
  closed f = false ->
  let self' := opened path e (closed_file f) in
  close (opened path e f) = Ok (tt, self') /\
  fp self' = Some (closed_file f) /\
  (forall b, write self' b = Raise (ValueError ClosedFile)) /\
  (forall host offset whence,
     seek host self' offset whence
     = Raise (if negb (fits_c_int whence) then OverflowError
              else ValueError
                     match seek_target host (closed_file f) offset whence with
                     | None => UnsupportedWhence
                     | Some _ => ClosedFile
                     end)) /\
  (forall host count, skip host self' count = Raise (ValueError ClosedFile)) /\
  (forall host op n,
     call host op self' n
     = if (int_min (declared_width op) (declared_signed op) <=? n)
          && (n <=? int_max (declared_width op) (declared_signed op))
       then Raise (ValueError ClosedFile) else Raise StructError) /\
  (forall s,
     (is_ascii s ->
      write_ascii_string self' s = Raise (ValueError ClosedFile) /\
      write_ascii_nt_string self' s = Raise (ValueError ClosedFile)) /\
     (has_non_ascii s ->
      write_ascii_string self' s = Raise UnicodeEncodeError /\
      write_ascii_nt_string self' s = Raise UnicodeEncodeError)) /\
  (forall s,
     write_utf8_string self' s
     = match encode_utf8 s with
       | Ok _ => Raise (ValueError ClosedFile)
       | Raise x => Raise x
       end /\
     write_utf8_nt_string self' s
     = match encode_utf8 s with
       | Ok _ => Raise (ValueError ClosedFile)
       | Raise x => Raise x
       end).
Proof.
  intros Hopen self'. subst self'.
  split; [apply close_opened|]. split; [reflexivity|].
  split; [reflexivity|].
  split.
  { intros host offset whence. unfold seek, fp_call, file_seek.
    cbn [fp opened set_fp bind fst snd].
    destruct (fits_c_int whence); cbn [negb]; [|reflexivity].
    destruct (seek_target host (closed_file f) offset whence); reflexivity. }
  split; [reflexivity|].
  split.
  { intros host op n. unfold opened. rewrite call_constructed.
    unfold pack_int. destruct (_ && _); reflexivity. }
  split.
  - intros s. split.
    + intros Hs. unfold write_ascii_string, write_ascii_nt_string, fp_call.
      cbn [fp opened set_fp]. rewrite (encode_ascii_ok s Hs).
      split; reflexivity.
    + intros Hex. unfold write_ascii_string, write_ascii_nt_string, fp_call.
      cbn [fp opened set_fp].
      destruct (encode_ascii_cases s) as [[Hall _]|[_ Henc]].
      * destruct (ascii_not_both s Hall Hex).
      * rewrite Henc. split; reflexivity.
  - intros s. unfold write_utf8_string, write_utf8_nt_string, fp_call.
    cbn [fp opened set_fp].
    destruct (encode_utf8 s); split; reflexivity.
Qed.

(** Every call that goes through the handle leaves the path and the
    byte-order prefix as [__init__] set them: the writers reached from
    [__init__ path e] are the [set_fp (__init__ path e) h]. *)
Lemma fp_call_keeps_construction {A B} self (arg : result A)
    (m : FileObject -> A -> result (B * FileObject)) r self' :
  fp_call self arg m = Ok (r, self') ->
  exists f', self' = set_fp self (Some f').
Proof.
  unfold fp_call. destruct (fp self) as [f|]; [|discriminate].
  destruct arg as [a|]; cbn [bind]; [|discriminate].
  destruct (m f a) as [[b f']|]; cbn [bind fst snd]; [|discriminate].
  intros H; inversion H; subst. exists f'. reflexivity.
Qed.

(** ** Concrete runs *)

(** In native mode the code [l] follows the host: eight bytes on [lp64],
    four on [ilp32]. The writer never uses that mode. *)
Example pack_native_long :
  pack lp64 "l" 1
  = Ok [Byte.x01; Byte.x00; Byte.x00; Byte.x00;
        Byte.x00; Byte.x00; Byte.x00; Byte.x00] /\
  pack ilp32 "l" 1 = Ok [Byte.x01; Byte.x00; Byte.x00; Byte.x00] /\
  pack lp64 "<l" 1 = Ok [Byte.x01; Byte.x00; Byte.x00; Byte.x00] /\
  pack lp64 ">l" 1 = Ok [Byte.x00; Byte.x00; Byte.x00; Byte.x01].
Proof. repeat split; vm_compute; reflexivity. Qed.

Example pack_boundaries :
  pack lp64 "<b" (-128) = Ok [Byte.x80] /\
  pack lp64 "<b" 127 = Ok [Byte.x7f] /\
  pack lp64 "<b" 128 = Raise StructError /\
  pack lp64 "<B" 255 = Ok [Byte.xff] /\
  pack lp64 "<B" (-1) = Raise StructError /\
  pack lp64 ">h" (-2) = Ok [Byte.xff; Byte.xfe] /\
  pack lp64 "<l" 2147483647 = Ok [Byte.xff; Byte.xff; Byte.xff; Byte.x7f] /\
  pack lp64 "<l" 2147483648 = Raise StructError.
Proof. repeat split; vm_compute; reflexivity. Qed.

(** Writing into the middle of a file, past its end, and after a skip. *)
Example write_overwrites_at_cursor :
  outcome (write (opened "out.bin" 0 sample_file) [Byte.xaa; Byte.xbb; Byte.xcc])
  = Ok (3, Some {| content := [Byte.x01; Byte.xaa; Byte.xbb; Byte.xcc];
                   position := 4; closed := false |}).
Proof. vm_compute. reflexivity. Qed.

Example skip_then_write_byte :
  outcome (r <- open lp64 (__init__ "out.bin" LITTLE_ENDIAN) ;;
           r <- skip lp64 (fst r) 4 ;;
           write_byte lp64 (snd r) 1)
  = Ok (1, Some {| content := [Byte.x00; Byte.x00; Byte.x00; Byte.x00; Byte.x01];
                   position := 5; closed := false |}).
Proof. vm_compute. reflexivity. Qed.

Example write_before_open :
  write_byte lp64 (__init__ "out.bin" LITTLE_ENDIAN) 1 = Raise AttributeError /\
  write_byte lp64 (__init__ "out.bin" LITTLE_ENDIAN) 300 = Raise StructError /\
  write_ascii_string (__init__ "out.bin" LITTLE_ENDIAN) cafe = Raise AttributeError.
Proof. repeat split; vm_compute; reflexivity. Qed.

Example encode_utf8_lengths :
  encode_utf8 [0x7FF; 0x800; 0xFFFF]%N
  = Ok [Byte.xdf; Byte.xbf; Byte.xe0; Byte.xa0; Byte.x80;
        Byte.xef; Byte.xbf; Byte.xbf] /\
  encode_utf8 [0x10FFFF]%N = Ok [Byte.xf4; Byte.x8f; Byte.xbf; Byte.xbf] /\
  encode_utf8 [0xD800]%N = Raise UnicodeEncodeError /\
  encode_ascii [0xD800]%N = Raise UnicodeEncodeError.
Proof. repeat split; vm_compute; reflexivity. Qed.

(** Three bytes, a seek past the end, an empty write (the file does not
    grow), a one-byte write at offset 6, and the end of the file at 7. *)
Example seek_past_end_then_write :
  (r <- file_write fresh_file [Byte.x61; Byte.x62; Byte.x63] ;;
   r <- file_seek lp64 (snd r) 5 SEEK_BEGINNING ;;
   r <- file_write (snd r) [] ;;
   r <- file_seek lp64 (snd r) 0 SEEK_END ;;
   Ok (fst r))
  = Ok 3 /\
  (r <- file_write fresh_file [Byte.x61; Byte.x62; Byte.x63] ;;
   r <- file_seek lp64 (snd r) 6 SEEK_BEGINNING ;;
   r <- file_write (snd r) [Byte.x7a] ;;
   r <- file_seek lp64 (snd r) (-1) SEEK_CURRENT ;;
   Ok r)
  = Ok (6, {| content := [Byte.x61; Byte.x62; Byte.x63;
                          Byte.x00; Byte.x00; Byte.x00; Byte.x7a];
              position := 6; closed := false |}) /\
  file_seek lp64 sample_file (-1) SEEK_BEGINNING = Raise OSError /\
  file_seek lp64 sample_file (-100) SEEK_END = Raise OSError /\
  file_seek lp64 sample_file 0 7 = Raise (ValueError UnsupportedWhence) /\
  file_seek lp64 (closed_file sample_file) 0 7
  = Raise (ValueError UnsupportedWhence) /\
  file_seek lp64 (closed_file sample_file) 0 SEEK_BEGINNING
  = Raise (ValueError ClosedFile).
Proof. repeat split; vm_compute; reflexivity. Qed.

(** The range checks of a seek, in the order the file object makes them. *)
Example seek_range_checks :
  file_seek lp64 sample_file 0 (2 ^ 31) = Raise OverflowError /\
  file_seek lp64 (closed_file sample_file) 0 (2 ^ 31) = Raise OverflowError /\
  file_seek lp64 sample_file (2 ^ 63) 7 = Raise (ValueError UnsupportedWhence) /\
  file_seek lp64 (closed_file sample_file) (2 ^ 63) SEEK_BEGINNING
  = Raise (ValueError ClosedFile) /\
  file_seek lp64 sample_file (2 ^ 63) SEEK_CURRENT
  = Raise (ValueError OffsetOutOfRange) /\
  file_seek lp64 sample_file (- 2 ^ 63 - 1) SEEK_BEGINNING
  = Raise (ValueError OffsetOutOfRange) /\
  file_seek lp64 sample_file (2 ^ 63 - 1) SEEK_CURRENT = Raise OSError /\
  file_seek lp64 sample_file (- 2 ^ 63) SEEK_BEGINNING = Raise OSError /\
  file_seek ilp32 sample_file (2 ^ 62) SEEK_BEGINNING = Raise OSError /\
  outcome (skip lp64 (opened "out.bin" 0 sample_file) (2 ^ 63))
  = Raise (ValueError OffsetOutOfRange) /\
  outcome (skip lp64 (opened "out.bin" 0 sample_file) 0)
  = Ok (1, Some sample_file).
Proof. repeat split; vm_compute; reflexivity. Qed.

Lemma numeric_write_round_trip_witness :
  closed sample_file = false /\
  int_min (declared_width Byte_) (declared_signed Byte_) <= -128
    <= int_max (declared_width Byte_) (declared_signed Byte_) /\
  exists b,
    emits (call lp64 Byte_ (opened "out.bin" BIG_ENDIAN sample_file) (-128))
          (opened "out.bin" BIG_ENDIAN sample_file) b /\
    List.length b = declared_width Byte_ /\
    unpack lp64 (endian (opened "out.bin" BIG_ENDIAN sample_file)
                 ++ String (code Byte_) EmptyString) b = Ok (-128).
Proof.
  split; [reflexivity|]. split; [cbn; lia|].
  apply (numeric_write_round_trip lp64 Byte_ "out.bin" BIG_ENDIAN
           sample_file (-128)); [reflexivity | cbn; lia].
Defined.

Lemma numeric_write_returns_width_witness :
  call lp64 Long (set_fp (__init__ "out.bin" LITTLE_ENDIAN) (Some sample_file)) 5
  = Ok (4, opened "out.bin" LITTLE_ENDIAN
             {| content := [Byte.x01; Byte.x05; Byte.x00; Byte.x00; Byte.x00];
                position := 5; closed := false |}) /\
  4 = Z.of_nat (declared_width Long).
Proof.
  split; [vm_compute; reflexivity|].
  apply (numeric_write_returns_width lp64 Long "out.bin" LITTLE_ENDIAN
           (Some sample_file) 5 4
           (opened "out.bin" LITTLE_ENDIAN
              {| content := [Byte.x01; Byte.x05; Byte.x00; Byte.x00; Byte.x00];
                 position := 5; closed := false |})).
  vm_compute; reflexivity.
Defined.


Lemma write_ushort_byte_order_witness :
  closed sample_file = false /\
  emits (write_ushort lp64 (opened "out.bin" LITTLE_ENDIAN sample_file) 0x1234)
        (opened "out.bin" LITTLE_ENDIAN sample_file) [Byte.x34; Byte.x12] /\
  emits (write_ushort lp64 (opened "out.bin" BIG_ENDIAN sample_file) 0x1234)
        (opened "out.bin" BIG_ENDIAN sample_file) [Byte.x12; Byte.x34].
Proof.
  split; [reflexivity|].
  apply (write_ushort_byte_order lp64 "out.bin" sample_file eq_refl).
Defined.

Lemma nonzero_endian_is_big_endian_witness :
  7 <> LITTLE_ENDIAN /\
  __init__ "out.bin" 7 = __init__ "out.bin" BIG_ENDIAN /\
  emits (call lp64 UShort (opened "out.bin" 7 sample_file) 0x1234)
        (opened "out.bin" 7 sample_file) [Byte.x12; Byte.x34].
Proof.
  assert (H7 : 7 <> LITTLE_ENDIAN) by discriminate.
  destruct (nonzero_endian_is_big_endian "out.bin" 7 H7) as (Hi & _ & _ & Hb).
  split; [exact H7|]. split; [exact Hi|].
  apply (Hb lp64 UShort sample_file 0x1234 eq_refl).
  cbn; lia.
Defined.

Lemma write_ascii_nt_string_terminated_witness :
  closed sample_file = false /\
  emits (write_ascii_string (opened "out.bin" LITTLE_ENDIAN sample_file)
           (text_of_string "AB"))
        (opened "out.bin" LITTLE_ENDIAN sample_file) [Byte.x41; Byte.x42] /\
  emits (write_ascii_nt_string (opened "out.bin" LITTLE_ENDIAN sample_file)
           (text_of_string "AB"))
        (opened "out.bin" LITTLE_ENDIAN sample_file)
        [Byte.x41; Byte.x42; Byte.x00].
Proof.
  split; [reflexivity|].
  apply (write_ascii_nt_string_terminated "out.bin" LITTLE_ENDIAN
           sample_file eq_refl).
Defined.

Lemma write_ascii_string_strict_witness :
  closed sample_file = false /\
  write_ascii_string (opened "out.bin" LITTLE_ENDIAN sample_file) cafe
  = Raise UnicodeEncodeError /\
  emits (write_utf8_string (opened "out.bin" LITTLE_ENDIAN sample_file) cafe)
        (opened "out.bin" LITTLE_ENDIAN sample_file)
        [Byte.x63; Byte.x61; Byte.x66; Byte.xc3; Byte.xa9].
Proof.
  split; [reflexivity|].
  apply (write_ascii_string_strict "out.bin" LITTLE_ENDIAN sample_file eq_refl).
Defined.

Lemma close_keeps_closed_handle_witness :
  closed sample_file = false /\
  close (opened "out.bin" LITTLE_ENDIAN sample_file)
  = Ok (tt, opened "out.bin" LITTLE_ENDIAN (closed_file sample_file)) /\
  fp (opened "out.bin" LITTLE_ENDIAN (closed_file sample_file))
  = Some (closed_file sample_file) /\
  (forall b,
     write (opened "out.bin" LITTLE_ENDIAN (closed_file sample_file)) b
     = Raise (ValueError ClosedFile)).
Proof.
  split; [reflexivity|].
  destruct (close_keeps_closed_handle "out.bin" LITTLE_ENDIAN sample_file
              eq_refl) as (Hc & Hfp & Hw & _).
  split; [exact Hc|]. split; [exact Hfp | exact Hw].
Defined.

(** C2, as stated, fails: after [open] and [close] the handle still holds
    the file object (it is not [None]), and a write of an out-of-range
    number or of non-ASCII text raises the encoding error, not an error
    about the state of the stream. *)
Lemma close_leaves_handle_set :
  exists opened_writer closed_writer,
    open lp64 (__init__ "out.bin" LITTLE_ENDIAN)
    = Ok (opened_writer, opened_writer) /\
    close opened_writer = Ok (tt, closed_writer) /\
    fp closed_writer = Some (closed_file fresh_file) /\
    fp closed_writer <> None /\
    write_byte lp64 closed_writer 300 = Raise StructError /\
    write_ascii_string closed_writer cafe = Raise UnicodeEncodeError.
Proof.
  exists (opened "out.bin" LITTLE_ENDIAN fresh_file).
  exists (opened "out.bin" LITTLE_ENDIAN (closed_file fresh_file)).
  repeat split; try discriminate.
Qed.

(** * Further properties *)

(** ** Raw writes *)

Lemma length_overwrite old pos b :
  List.length (overwrite old pos b)
  = Nat.max (List.length old) (pos + List.length b).
Proof.
  unfold overwrite.
  rewrite !length_app, length_padded_prefix, length_skipn. lia.
Qed.

Lemma overwrite_at_start old b :
  overwrite old 0 b = b ++ skipn (List.length b) old.
Proof. reflexivity. Qed.

Lemma overwrite_at_end old b : overwrite old (List.length old) b = old ++ b.
Proof.
  unfold overwrite, padded.
  rewrite Nat.sub_diag. cbn [repeat]. rewrite app_nil_r, firstn_all.
  rewrite skipn_all2 by lia. rewrite app_nil_r. reflexivity.
Qed.

(** Storing [b1] and then [b2] right after it is storing [b1 ++ b2]. *)
Lemma overwrite_overwrite old pos b1 b2 :
  overwrite (overwrite old pos b1) (pos + List.length b1) b2
  = overwrite old pos (b1 ++ b2).
Proof.
  unfold overwrite at 1.
  assert (Hlen : (pos + List.length b1 <= List.length (overwrite old pos b1))%nat)
    by (rewrite length_overwrite; lia).
  unfold padded.
  replace (pos + List.length b1 - List.length (overwrite old pos b1))%nat
    with 0%nat by lia.
  cbn [repeat]. rewrite app_nil_r.
  unfold overwrite.
  assert (Hp := length_padded_prefix old pos).
  set (prefix := firstn pos (padded old pos)) in *. clearbody prefix.
  rewrite (app_assoc prefix b1).
  assert (Hpb : List.length (prefix ++ b1) = (pos + List.length b1)%nat)
    by (rewrite length_app; lia).
  rewrite firstn_app, skipn_app, Hpb.
  rewrite (firstn_all2 (n := pos + List.length b1) (prefix ++ b1))
    by (rewrite Hpb; lia).
  rewrite (skipn_all2 (n := pos + List.length b1 + List.length b2)
             (prefix ++ b1)) by (rewrite Hpb; lia).
  replace (pos + List.length b1 - (pos + List.length b1))%nat with 0%nat by lia.
  replace (pos + List.length b1 + List.length b2 - (pos + List.length b1))%nat
    with (List.length b2) by lia.
  cbn [firstn app]. rewrite app_nil_r, skipn_skipn, length_app.
  rewrite <- !app_assoc.
  do 3 f_equal. f_equal. lia.
Qed.

Lemma file_write_app f b1 b2 :
  (r1 <- file_write f b1 ;;
   r2 <- file_write (snd r1) b2 ;;
   Ok (fst r1 + fst r2, snd r2))
  = file_write f (b1 ++ b2).
Proof.
  unfold file_write.
  destruct (closed f) eqn:Hc; [reflexivity|].
  cbn [bind fst snd].
  destruct b1 as [|x1 b1].
  - rewrite Hc. reflexivity.
  - cbn [closed bind fst snd].
    destruct b2 as [|x2 b2].
    + rewrite app_nil_r, Z.add_0_r. reflexivity.
    + cbn [content position].
      rewrite overwrite_overwrite, length_app, Nat2Z.inj_add, Nat.add_assoc.
      reflexivity.
Qed.

Lemma and_then_write self b1 b2 :
  and_then (write self b1) (fun self' => write self' b2)
  = write self (b1 ++ b2).
Proof.
  unfold and_then, write, fp_call.
  destruct (fp self) as [f|]; [|reflexivity].
  cbn [bind]. rewrite <- file_write_app.
  destruct (file_write f b1) as [[k1 f1]|]; [|reflexivity].
  cbn [bind fst snd fp set_fp].
  destruct (file_write f1 b2) as [[k2 f2]|]; reflexivity.
Qed.

(** X1. A raw write on an open stream returns the number of bytes given,
    stores them at the cursor, moves the cursor past them and keeps the
    rest of the file; afterwards the file is as long as before, or ends
    where the written bytes end, whichever is longer. *)
Theorem write_stores_bytes self f b :
  fp self = Some f -> closed f = false ->
  emits (write self b) self b /\
  exists f',
    write self b = Ok (Z.of_nat (List.length b), set_fp self (Some f')) /\
    List.length (content f')
    = match b with
      | [] => List.length (content f)
      | _ => Nat.max (List.length (content f)) (position f + List.length b)
      end.
Proof.
  intros Hfp Hopen. split.
  - apply (fp_write_emits self f b Hfp Hopen).
  - unfold write, fp_call, file_write. rewrite Hfp. cbn [bind].
    rewrite Hopen. cbn [bind fst snd].
    eexists. split; [reflexivity|].
    destruct b; [reflexivity|]. cbn [content]. apply length_overwrite.
Qed.

(** X2. Two raw writes in a row behave as one write of the concatenation:
    same total count, same writer afterwards, same exception if any. *)
Theorem write_write_is_write_app self b1 b2 :
  and_then (write self b1) (fun self' => write self' b2)
  = write self (b1 ++ b2).
Proof. apply and_then_write. Qed.

(** ** More on numeric writes *)

Lemma set_fp_set_fp self h h' : set_fp (set_fp self h) h' = set_fp self h'.
Proof. reflexivity. Qed.

Lemma call_as_write host op path e h n b :
  pack_int (declared_width op) (declared_signed op) (e =? LITTLE_ENDIAN) n = Ok b ->
  call host op (set_fp (__init__ path e) h) n
  = write (set_fp (__init__ path e) h) b.
Proof. intros Hp. rewrite call_constructed, Hp. reflexivity. Qed.

Lemma pack_int_in_range size signed little n :
  int_min size signed <= n <= int_max size signed ->
  pack_int size signed little n
  = Ok (if little then le_split size n else rev (le_split size n)).
Proof. intros Hr. unfold pack_int. rewrite (int_range_bool _ _ _ Hr). reflexivity. Qed.

Lemma width_positive op : (1 <= declared_width op)%nat.
Proof. destruct op; cbn; lia. Qed.

(** X3. A numeric write of a value outside the range of its width and
    signedness raises [struct.error], whatever the endianness and whatever
    the state of the handle (never opened, open or closed): the value is
    neither truncated nor clamped. *)
Theorem numeric_out_of_range_raises host op path e h n :
  n < int_min (declared_width op) (declared_signed op) \/
  int_max (declared_width op) (declared_signed op) < n ->
  call host op (set_fp (__init__ path e) h) n = Raise StructError.
Proof.
  intros Hout. rewrite call_constructed.
  rewrite pack_int_out_of_range by lia. reflexivity.
Qed.

(** X4. On a writer that was never opened every call fails: a raw write, a
    string write (of any text, encodable or not), a seek, a skip and a close
    raise [AttributeError]; a numeric write raises [AttributeError] for a
    value in range and [struct.error] for a value out of range. *)
Theorem unopened_writer_raises path e :
  let self := __init__ path e in
  (forall b, write self b = Raise AttributeError) /\
  (forall s, write_ascii_string self s = Raise AttributeError /\
             write_ascii_nt_string self s = Raise AttributeError /\
             write_utf8_string self s = Raise AttributeError /\
             write_utf8_nt_string self s = Raise AttributeError) /\
  (forall host offset whence,
     seek host self offset whence = Raise AttributeError) /\
  (forall host count, skip host self count = Raise AttributeError) /\
  close self = Raise AttributeError /\
  (forall host op n,
     call host op self n
     = if (int_min (declared_width op) (declared_signed op) <=? n)
          && (n <=? int_max (declared_width op) (declared_signed op))
       then Raise AttributeError else Raise StructError).
Proof.
  intros self. subst self.
  repeat split.
  intros host op n.
  change (__init__ path e) with (set_fp (__init__ path e) None).
  rewrite call_constructed. unfold pack_int.
  destruct (_ && _); reflexivity.
Qed.

(** X5. [write_long] is [write_int] and [write_ulong] is [write_uint]: on
    every writer built by the constructor, for every value and on every
    host, the two calls have the same result. *)
Theorem long_is_int host path e h n :
  write_long host (set_fp (__init__ path e) h) n
  = write_int host (set_fp (__init__ path e) h) n /\
  write_ulong host (set_fp (__init__ path e) h) n
  = write_uint host (set_fp (__init__ path e) h) n.
Proof.
  change (write_long host) with (call host Long).
  change (write_int host) with (call host Int).
  change (write_ulong host) with (call host ULong).
  change (write_uint host) with (call host UInt).
  rewrite !call_constructed. split; reflexivity.
Qed.

(** X6. Two's complement: a value in the range of a numeric write is
    stored with the bit pattern of its residue modulo 2^(8 * width), so the
    call has the same result as the unsigned write of the same width on
    that residue ([write_byte(-1)] is [write_ubyte(255)]). *)
Theorem signed_write_is_unsigned_write_of_residue host op path e h n :
  int_min (declared_width op) (declared_signed op) <= n
    <= int_max (declared_width op) (declared_signed op) ->
  call host op (set_fp (__init__ path e) h) n
  = call host (unsigned_counterpart op) (set_fp (__init__ path e) h)
      (n mod 2 ^ (Z.of_nat (declared_width op) * 8)).
Proof.
  intros Hr. rewrite !call_constructed.
  rewrite (pack_int_in_range _ _ _ _ Hr).
  assert (Hw : declared_width (unsigned_counterpart op) = declared_width op)
    by (destruct op; reflexivity).
  assert (Hs : declared_signed (unsigned_counterpart op) = false)
    by (destruct op; reflexivity).
  rewrite Hw, Hs.
  rewrite pack_int_in_range.
  - rewrite <- le_split_mod. reflexivity.
  - unfold int_min, int_max.
    pose proof (Z.mod_pos_bound n (2 ^ (Z.of_nat (declared_width op) * 8))) as Hb.
    assert (0 < 2 ^ (Z.of_nat (declared_width op) * 8))
      by (apply Z.pow_pos_nonneg; lia).
    lia.
Qed.

(** X7. Byte layout: on an open writer a value in range is stored by a
    little-endian writer as the bytes [(n >> 8i) & 0xFF] for [i] from 0 to
    width - 1, and by a big-endian writer as the same bytes in reverse
    order. *)
Theorem big_endian_reverses_little_endian host op path f n :
  closed f = false ->
  int_min (declared_width op) (declared_signed op) <= n
    <= int_max (declared_width op) (declared_signed op) ->
  exists b,
    emits (call host op (opened path LITTLE_ENDIAN f) n)
          (opened path LITTLE_ENDIAN f) b /\
    emits (call host op (opened path BIG_ENDIAN f) n)
          (opened path BIG_ENDIAN f) (rev b) /\
    List.length b = declared_width op /\
    (forall i, (i < declared_width op)%nat ->
       nth_error b i = Some (byte.of_Z (Z.shiftr n (8 * Z.of_nat i)))).
Proof.
  intros Hopen Hr. exists (le_split (declared_width op) n).
  split; [|split; [|split]].
  - apply call_emits; [assumption|]. apply (pack_int_in_range _ _ true _ Hr).
  - apply call_emits; [assumption|]. apply (pack_int_in_range _ _ false _ Hr).
  - apply length_le_split.
  - intros i Hi. apply nth_error_le_split. assumption.
Qed.

(** X8. No padding: two numeric writes in a row on an open writer, of
    values in range, store the bytes of the first immediately followed by
    the bytes of the second, and the counts add up to the two widths; each
    part decodes to its value. *)
Theorem numeric_writes_are_contiguous host op1 op2 path e f n1 n2 :
  closed f = false ->
  int_min (declared_width op1) (declared_signed op1) <= n1
    <= int_max (declared_width op1) (declared_signed op1) ->
  int_min (declared_width op2) (declared_signed op2) <= n2
    <= int_max (declared_width op2) (declared_signed op2) ->
  let self := opened path e f in
  exists b1 b2,
    emits (and_then (call host op1 self n1) (fun self' => call host op2 self' n2))
          self (b1 ++ b2) /\
    List.length b1 = declared_width op1 /\
    List.length b2 = declared_width op2 /\
    unpack host (endian self ++ String (code op1) EmptyString) b1 = Ok n1 /\
    unpack host (endian self ++ String (code op2) EmptyString) b2 = Ok n2.
Proof.
  intros Hopen Hr1 Hr2 self.
  destruct (unpack_pack_int _ _ (e =? LITTLE_ENDIAN) _ Hr1) as (b1 & Hp1 & Hu1).
  destruct (unpack_pack_int _ _ (e =? LITTLE_ENDIAN) _ Hr2) as (b2 & Hp2 & Hu2).
  exists b1, b2.
  split; [|split; [|split; [|split]]].
  - assert (Hseq : and_then (call host op1 self n1)
                     (fun self' => call host op2 self' n2)
                   = write self (b1 ++ b2)).
    { rewrite <- and_then_write. subst self. unfold opened.
      rewrite (call_as_write _ _ _ _ _ _ _ Hp1).
      unfold and_then.
      destruct (write (set_fp (__init__ path e) (Some f)) b1)
        as [[k1 self1]|] eqn:Hw1; [|reflexivity].
      cbn [bind fst snd].
      destruct (fp_call_keeps_construction _ _ _ _ _ Hw1) as (f1 & ->).
      rewrite set_fp_set_fp, (call_as_write _ _ _ _ _ _ _ Hp2). reflexivity. }
    rewrite Hseq. apply (fp_write_emits self f _ eq_refl Hopen).
  - apply (pack_int_length _ _ _ _ _ Hp1).
  - apply (pack_int_length _ _ _ _ _ Hp2).
  - subst self. unfold opened. rewrite unpack_constructed. exact Hu1.
  - subst self. unfold opened. rewrite unpack_constructed. exact Hu2.
Qed.

(** ** More on the lifecycle *)

Lemma open_any_handle host path e h :
  creatable host path = true ->
  open host (set_fp (__init__ path e) h)
  = Ok (opened path e fresh_file, opened path e fresh_file).
Proof.
  intros Hc. unfold open, builtin_open. cbn [output_path set_fp __init__].
  rewrite Hc. reflexivity.
Qed.

(** X9. A closed writer can be opened again: after a write and a close on
    an open stream, [open] succeeds when the path can be created and the
    writer then holds a new, empty, open file with the cursor at 0; what the
    earlier handle held is no longer reachable from the writer. When the
    path cannot be created the same sequence raises [OSError]. *)
Theorem reopen_starts_empty host path e f b :
  closed f = false ->
  (r1 <- write (opened path e f) b ;;
   r2 <- close (snd r1) ;;
   r3 <- open host (snd r2) ;;
   Ok (fst r3))
  = if creatable host path then Ok (opened path e fresh_file)
    else Raise OSError.
Proof.
  intros Hopen.
  unfold write, fp_call, file_write. cbn [fp opened set_fp bind].
  rewrite Hopen. cbn [bind fst snd].
  unfold close, fp_call, file_close. cbn [fp set_fp bind fst snd].
  unfold open, builtin_open. cbn [output_path opened set_fp __init__].
  destruct (creatable host path); reflexivity.
Qed.

(** X10. Scoped use: entering a fresh writer, writing [b] and leaving
    returns the count of [b] and ends with a closed file that holds exactly
    [b]. *)
Theorem scoped_write_leaves_closed_file host path e b :
  creatable host path = true ->
  (r0 <- __enter__ host (__init__ path e) ;;
   r1 <- write (fst r0) b ;;
   r2 <- __exit__ (snd r1) ;;
   Ok (fst r1, fp (snd r2)))
  = Ok (Z.of_nat (List.length b),
        Some {| content := b; position := List.length b; closed := true |}).
Proof.
  intros Hc. unfold __enter__, __exit__.
  change (__init__ path e) with (set_fp (__init__ path e) None).
  rewrite (open_any_handle host path e None Hc). cbn [bind fst snd].
  unfold write, fp_call, file_write.
  cbn [fp opened set_fp bind closed fresh_file fst snd].
  unfold close, fp_call, file_close, closed_file.
  cbn [fp set_fp bind fst snd].
  destruct b as [|x b]; [reflexivity|].
  cbn [content position]. rewrite overwrite_at_start.
  rewrite skipn_nil, app_nil_r. reflexivity.
Qed.

(** ** More on positioning *)

Lemma seek_target_standard host f offset :
  seek_target host f offset SEEK_BEGINNING = Some (Ok offset) /\
  seek_target host f offset SEEK_CURRENT
  = Some (Ok (Z.of_nat (position f) + offset)) /\
  seek_target host f offset SEEK_END
  = Some (Ok (Z.of_nat (List.length (content f)) + offset)).
Proof. repeat split. Qed.

(** X11. A seek that succeeds was made on an open stream, leaves the bytes
    of the file untouched and the stream open, and returns the new cursor,
    which is never negative; this holds for every origin, including those
    the host adds. *)
Theorem seek_keeps_content host self offset whence r self' :
  seek host self offset whence = Ok (r, self') ->
  exists f f',
    fp self = Some f /\ closed f = false /\
    self' = set_fp self (Some f') /\
    content f' = content f /\ closed f' = false /\
    r = Z.of_nat (position f').
Proof.
  unfold seek, fp_call.
  destruct (fp self) as [f|] eqn:Hfp; [|discriminate].
  cbn [bind fst snd].
  destruct (file_seek host f offset whence) as [[r0 f']|] eqn:Hs;
    cbn [bind fst snd]; [|discriminate].
  intros Hok; inversion Hok; subst.
  exists f, f'.
  destruct (file_seek_content _ _ _ _ _ _ Hs) as (Hc & Hcl & Hp).
  repeat split; try assumption; try (symmetry; assumption).
  unfold file_seek in Hs.
  destruct (fits_c_int whence); cbn [negb] in Hs; [|discriminate].
  destruct (seek_target host f offset whence); [|discriminate].
  destruct (closed f); [discriminate | reflexivity].
Qed.

(** X12. Seeking back to the beginning and writing overwrites instead of
    appending: the first bytes of the file are replaced by [b], the bytes
    after them are kept, and the cursor ends after [b]. *)
Theorem rewind_then_write_overwrites host self f b :
  fp self = Some f -> closed f = false ->
  outcome (r <- seek host self 0 SEEK_BEGINNING ;; write (snd r) b)
  = Ok (Z.of_nat (List.length b),
        Some {| content := b ++ skipn (List.length b) (content f);
                position := List.length b;
                closed := false |}).
Proof.
  intros Hfp Hopen.
  unfold seek, fp_call, file_seek. rewrite Hfp.
  cbn [bind fst snd].
  destruct fits_c_int_standard as (-> & _ & _).
  destruct (seek_target_standard host f 0) as (-> & _ & _).
  rewrite Hopen.
  change (fits_off_t 0) with true. cbn [negb bind].
  assert (Hlim : (0 <? 0) || (offset_limit host f <? 0) = false).
  { apply orb_false_iff. split; [reflexivity|].
    apply Z.ltb_ge. unfold offset_limit. lia. }
  rewrite Hlim. cbn [bind fst snd].
  unfold write, fp_call, file_write. cbn [fp set_fp bind closed fst snd outcome].
  destruct b as [|x b]; reflexivity.
Qed.

(** X13. Seeking to the end and writing appends: the file becomes its old
    content followed by [b], and the cursor ends at the new end. *)
Theorem seek_end_then_write_appends host self f b :
  fp self = Some f -> closed f = false ->
  outcome (r <- seek host self 0 SEEK_END ;; write (snd r) b)
  = Ok (Z.of_nat (List.length b),
        Some {| content := content f ++ b;
                position := List.length (content f) + List.length b;
                closed := false |}).
Proof.
  intros Hfp Hopen.
  unfold seek, fp_call, file_seek. rewrite Hfp.
  cbn [bind fst snd].
  destruct fits_c_int_standard as (_ & _ & ->).
  destruct (seek_target_standard host f 0) as (_ & _ & ->).
  rewrite Hopen, Z.add_0_r.
  change (fits_off_t 0) with true. cbn [negb bind].
  assert (Hlim : (Z.of_nat (List.length (content f)) <? 0)
                 || (offset_limit host f <? Z.of_nat (List.length (content f)))
                 = false).
  { apply orb_false_iff. split; apply Z.ltb_ge; unfold offset_limit; lia. }
  rewrite Hlim.
  cbn [bind fst snd]. rewrite Nat2Z.id.
  unfold write, fp_call, file_write. cbn [fp set_fp bind closed fst snd outcome].
  destruct b as [|x b].
  - cbn [List.length]. rewrite app_nil_r, Nat.add_0_r. reflexivity.
  - cbn [content position]. rewrite overwrite_at_end. reflexivity.
Qed.

Lemma file_seek_current_ok host f count :
  closed f = false ->
  fits_off_t count = true ->
  0 <= Z.of_nat (position f) + count <= offset_limit host f ->
  file_seek host f count SEEK_CURRENT
  = Ok (Z.of_nat (position f) + count,
        {| content := content f;
           position := Z.to_nat (Z.of_nat (position f) + count);
           closed := false |}).
Proof.
  intros Hopen Hfit Hr. rewrite (file_seek_current host f count Hopen), Hfit.
  cbn [negb].
  destruct (Z.ltb_spec (Z.of_nat (position f) + count) 0); [lia|].
  destruct (Z.ltb_spec (offset_limit host f) (Z.of_nat (position f) + count));
    [lia | reflexivity].
Qed.

Lemma skip_opened host path e f count :
  closed f = false ->
  fits_off_t count = true ->
  0 <= Z.of_nat (position f) + count <= offset_limit host f ->
  skip host (opened path e f) count
  = Ok (Z.of_nat (position f) + count,
        opened path e
          {| content := content f;
             position := Z.to_nat (Z.of_nat (position f) + count);
             closed := false |}).
Proof.
  intros Hopen Hfit Hr. unfold skip, fp_call.
  cbn [fp opened set_fp bind fst snd].
  rewrite (file_seek_current_ok host f count Hopen Hfit Hr). reflexivity.
Qed.

(** X14. A skip followed by a numeric write moves the cursor by the count
    skipped plus the width written: on an open writer, when the count fits
    the file offset type, the skip does not go below 0, the bytes written
    end within what the file system accepts and the value is in range, the
    write returns its width and the cursor ends at the old position + count
    + width. *)
Theorem skip_then_numeric_write_position host op path e f count n :
  closed f = false ->
  fits_off_t count = true ->
  0 <= Z.of_nat (position f) + count ->
  Z.of_nat (position f) + count + Z.of_nat (declared_width op)
    <= offset_limit host f ->
  int_min (declared_width op) (declared_signed op) <= n
    <= int_max (declared_width op) (declared_signed op) ->
  exists f',
    (r <- skip host (opened path e f) count ;; call host op (snd r) n)
    = Ok (Z.of_nat (declared_width op), opened path e f') /\
    closed f' = false /\
    Z.of_nat (position f')
    = Z.of_nat (position f) + count + Z.of_nat (declared_width op).
Proof.
  intros Hopen Hfit Hpos Hend Hr.
  rewrite (skip_opened host path e f count Hopen Hfit) by lia.
  cbn [bind fst snd]. unfold opened.
  rewrite call_constructed, (pack_int_in_range _ _ _ _ Hr).
  cbn [bind]. unfold write, fp_call, file_write.
  cbn [fp set_fp bind closed fst snd].
  set (b := if e =? LITTLE_ENDIAN then _ else _).
  assert (Hb : List.length b = declared_width op).
  { subst b. destruct (e =? LITTLE_ENDIAN);
      rewrite ?length_rev; apply length_le_split. }
  pose proof (width_positive op) as Hw.
  destruct b as [|x b]; [cbn in Hb; lia|].
  eexists. split; [rewrite Hb; reflexivity|].
  cbn [closed position]. split; [reflexivity|].
  rewrite Nat2Z.inj_add, Z2Nat.id by lia. reflexivity.
Qed.

(** X15. Skips add up: on an open stream, when [a], [b] and [a + b] fit
    the file offset type and a skip by [a] lands between 0 and what the file
    system accepts, that skip followed by a skip by [b] has the result of
    one skip by [a + b], writer and exception included. *)
Theorem skip_skip_is_skip_sum host self f a b :
  fp self = Some f -> closed f = false ->
  fits_off_t a = true -> fits_off_t b = true -> fits_off_t (a + b) = true ->
  0 <= Z.of_nat (position f) + a <= offset_limit host f ->
  (r <- skip host self a ;; skip host (snd r) b) = skip host self (a + b).
Proof.
  intros Hfp Hopen Hfa Hfb Hfab Ha.
  unfold skip, fp_call. rewrite Hfp. cbn [bind fst snd].
  rewrite (file_seek_current_ok host f a Hopen Hfa Ha).
  rewrite (file_seek_current host f (a + b) Hopen), Hfab.
  cbn [bind fst snd fp set_fp negb].
  rewrite file_seek_current by reflexivity. rewrite Hfb.
  cbn [position content negb]. rewrite Z2Nat.id by lia.
  change (offset_limit host
            {| content := content f;
               position := Z.to_nat (Z.of_nat (position f) + a);
               closed := false |})
    with (offset_limit host f).
  rewrite Z.add_assoc.
  destruct (_ || _); reflexivity.
Qed.

(** ** Sessions *)

Lemma after_ok {A} (r : result (A * BinaryStreamWriter)) self' :
  after r = Ok self' -> exists a, r = Ok (a, self').
Proof.
  unfold after. destruct r as [[a s]|]; cbn [bind snd]; [|discriminate].
  intros H; inversion H; subst. exists a. reflexivity.
Qed.

Lemma write_unfold self b : write self b = fp_call self (Ok b) file_write.
Proof. reflexivity. Qed.

(** One call: either it went through the handle with some method of the
    file object, or it was [open]. *)
Lemma exec_keeps_construction host c self self' :
  exec host c self = Ok self' -> exists h', self' = set_fp self h'.
Proof.
  intros H. destruct c; cbn [exec] in H; apply after_ok in H;
    destruct H as (a & H).
  - rewrite call_unfold in H.
    destruct (pack host _ n); cbn [bind] in H; [|discriminate].
    rewrite write_unfold in H.
    destruct (fp_call_keeps_construction _ _ _ _ _ H) as (f' & ->). eauto.
  - destruct (fp_call_keeps_construction _ _ _ _ _ H) as (f' & ->). eauto.
  - destruct (fp_call_keeps_construction _ _ _ _ _ H) as (f' & ->). eauto.
  - destruct (fp_call_keeps_construction _ _ _ _ _ H) as (f' & ->). eauto.
  - destruct (fp_call_keeps_construction _ _ _ _ _ H) as (f' & ->). eauto.
  - destruct (fp_call_keeps_construction _ _ _ _ _ H) as (f' & ->). eauto.
  - destruct (fp_call_keeps_construction _ _ _ _ _ H) as (f' & ->). eauto.
  - destruct (fp_call_keeps_construction _ _ _ _ _ H) as (f' & ->). eauto.
  - unfold open in H. destruct (builtin_open host _); cbn [bind] in H;
      [|discriminate].
    inversion H; subst. eauto.
  - destruct (fp_call_keeps_construction _ _ _ _ _ H) as (f' & ->). eauto.
Qed.

(** X16. The path and the byte order chosen at construction never change:
    after any sequence of calls that all succeed (writes, seeks, skips,
    opens and closes, in any order) the writer differs from the initial one
    in its handle only. *)
Theorem session_keeps_path_and_endianness host cs self self' :
  exec_all host cs self = Ok self' ->
  output_path self' = output_path self /\
  endian self' = endian self /\
  exists h', self' = set_fp self h'.
Proof.
  revert self. induction cs as [|c rest IH]; intros self H; cbn [exec_all] in H.
  - inversion H; subst. repeat split.
    exists (fp self'). destruct self'; reflexivity.
  - destruct (exec host c self) as [self1|] eqn:Hc; cbn [bind] in H;
      [|discriminate].
    destruct (exec_keeps_construction _ _ _ _ Hc) as (h1 & ->).
    destruct (IH _ H) as (Hp & He & h' & ->).
    repeat split. exists h'. reflexivity.
Qed.

Lemma file_write_grows f b r f' :
  file_write f b = Ok (r, f') ->
  (List.length (content f) <= List.length (content f'))%nat.
Proof.
  unfold file_write. destruct (closed f); [discriminate|].
  intros H; inversion H; subst.
  destruct b; [lia|]. cbn [content]. rewrite length_overwrite. lia.
Qed.

Lemma fp_call_grows {A B} self (arg : result A)
    (m : FileObject -> A -> result (B * FileObject)) f r self' :
  (forall g a x g', m g a = Ok (x, g') ->
     (List.length (content g) <= List.length (content g'))%nat) ->
  fp self = Some f ->
  fp_call self arg m = Ok (r, self') ->
  exists f', fp self' = Some f' /\
             (List.length (content f) <= List.length (content f'))%nat.
Proof.
  intros Hm Hfp. unfold fp_call. rewrite Hfp.
  destruct arg as [a|]; cbn [bind]; [|discriminate].
  destruct (m f a) as [[x f']|] eqn:Hmf; cbn [bind fst snd]; [|discriminate].
  intros H; inversion H; subst. exists f'. split; [reflexivity|].
  apply (Hm _ _ _ _ Hmf).
Qed.

Lemma exec_grows host c self f self' :
  is_open_command c = false ->
  fp self = Some f ->
  exec host c self = Ok self' ->
  exists f', fp self' = Some f' /\
             (List.length (content f) <= List.length (content f'))%nat.
Proof.
  intros Hno Hfp H.
  assert (Hseek : forall g (a : Z * Z) x g',
            file_seek host g (fst a) (snd a) = Ok (x, g') ->
            (List.length (content g) <= List.length (content g'))%nat).
  { intros g a x g' Hs.
    destruct (file_seek_content _ _ _ _ _ _ Hs) as (-> & _). lia. }
  destruct c; cbn [exec is_open_command] in H, Hno; try discriminate;
    apply after_ok in H; destruct H as (a & H).
  - rewrite call_unfold in H.
    destruct (pack host _ n); cbn [bind] in H; [|discriminate].
    rewrite write_unfold in H.
    apply (fp_call_grows _ _ _ _ _ _ file_write_grows Hfp H).
  - apply (fp_call_grows _ _ _ _ _ _ file_write_grows Hfp H).
  - apply (fp_call_grows _ _ _ _ _ _ file_write_grows Hfp H).
  - apply (fp_call_grows _ _ _ _ _ _ file_write_grows Hfp H).
  - apply (fp_call_grows _ _ _ _ _ _ file_write_grows Hfp H).
  - apply (fp_call_grows _ _ _ _ _ _ file_write_grows Hfp H).
  - apply (fp_call_grows _ _ _ _ _ _ Hseek Hfp H).
  - apply (fp_call_grows _ _ _ _ _ _ Hseek Hfp H).
  - refine (fp_call_grows _ _ _ _ _ _ _ Hfp H).
    intros g u x g' Hc. inversion Hc; subst. cbn. lia.
Qed.

(** X17. No call other than [open] shortens the file: after any sequence
    of writes, seeks, skips and closes that all succeed, the file is at
    least as long as before. *)
Theorem session_never_shortens_file host cs self f self' :
  fp self = Some f ->
  existsb is_open_command cs = false ->
  exec_all host cs self = Ok self' ->
  exists f', fp self' = Some f' /\
             (List.length (content f) <= List.length (content f'))%nat.
Proof.
  revert self f.
  induction cs as [|c rest IH]; intros self f Hfp Hno H;
    cbn [exec_all existsb] in H, Hno.
  - inversion H; subst. exists f. split; [assumption | lia].
  - apply orb_false_iff in Hno. destruct Hno as (Hc & Hrest).
    destruct (exec host c self) as [self1|] eqn:He; cbn [bind] in H;
      [|discriminate].
    destruct (exec_grows _ _ _ _ _ Hc Hfp He) as (f1 & Hfp1 & Hle1).
    destruct (IH _ _ Hfp1 Hrest H) as (f' & Hfp' & Hle').
    exists f'. split; [assumption | lia].
Qed.

Lemma closed_file_of_closed f : closed f = true -> closed_file f = f.
Proof. destruct f as [c p cl]. cbn. intros ->. reflexivity. Qed.

Lemma fp_call_on_closed_write {A} path e f (arg : result A) g self' r :
  closed f = true ->
  fp_call (opened path e f) arg (fun h a => file_write h (g a)) = Ok (r, self') ->
  False.
Proof.
  intros Hc. unfold fp_call, file_write. cbn [fp opened set_fp].
  destruct arg; cbn [bind]; [|discriminate].
  rewrite Hc. discriminate.
Qed.

Lemma exec_on_closed host c path e f self' :
  closed f = true ->
  is_open_command c = false ->
  exec host c (opened path e f) = Ok self' ->
  is_close_command c = true /\ self' = opened path e f.
Proof.
  intros Hc Hno H.
  destruct c; cbn [exec is_open_command] in H, Hno; try discriminate;
    apply after_ok in H; destruct H as (a & H).
  - exfalso. unfold opened in H. rewrite call_constructed in H.
    destruct (pack_int _ _ _ n) as [buf|]; cbn [bind] in H; [|discriminate].
    apply (fp_call_on_closed_write path e f (Ok buf) (fun x => x) _ _ Hc H).
  - exfalso.
    apply (fp_call_on_closed_write path e f _ (fun x => x) _ _ Hc H).
  - exfalso.
    apply (fp_call_on_closed_write path e f _ (fun x => x) _ _ Hc H).
  - exfalso.
    apply (fp_call_on_closed_write path e f _ (fun x => x) _ _ Hc H).
  - exfalso.
    apply (fp_call_on_closed_write path e f _ (fun x => x) _ _ Hc H).
  - exfalso.
    apply (fp_call_on_closed_write path e f _ (fun x => x) _ _ Hc H).
  - exfalso. unfold seek, fp_call, file_seek in H.
    cbn [fp opened set_fp bind fst snd] in H.
    destruct (fits_c_int whence); cbn [negb] in H; [|discriminate].
    destruct (seek_target host f offset whence); [|discriminate].
    rewrite Hc in H. discriminate.
  - exfalso. unfold skip, fp_call, file_seek in H.
    cbn [fp opened set_fp bind fst snd] in H.
    destruct (fits_c_int SEEK_CURRENT); cbn [negb] in H; [|discriminate].
    destruct (seek_target host f count SEEK_CURRENT); [|discriminate].
    rewrite Hc in H. discriminate.
  - split; [reflexivity|].
    rewrite close_opened in H. inversion H; subst.
    rewrite (closed_file_of_closed f Hc). reflexivity.
Qed.

(** X18. A closed stream stays as it is until it is opened again: in a
    sequence of calls without [open] that all succeed on a writer whose
    file is closed, every call is a [close], and the writer at the end is
    the writer at the start. *)
Theorem closed_stream_only_accepts_close host cs path e f self' :
  closed f = true ->
  existsb is_open_command cs = false ->
  exec_all host cs (opened path e f) = Ok self' ->
  forallb is_close_command cs = true /\ self' = opened path e f.
Proof.
  intros Hc. induction cs as [|c rest IH]; intros Hno H;
    cbn [exec_all existsb forallb] in *.
  - inversion H; subst. split; reflexivity.
  - apply orb_false_iff in Hno. destruct Hno as (Hno1 & Hrest).
    destruct (exec host c (opened path e f)) as [self1|] eqn:He;
      cbn [bind] in H; [|discriminate].
    destruct (exec_on_closed _ _ _ _ _ _ Hc Hno1 He) as (Hcl & ->).
    destruct (IH Hrest H) as (Hall & ->).
    rewrite Hcl, Hall. split; reflexivity.
Qed.

(** ** More on string writes *)

Lemma utf8_char_ascii c : (c < 128)%N -> utf8_char c = Ok [byte_of_N c].
Proof.
  intros Hc. unfold utf8_char.
  destruct (N.ltb_spec c 0x80); [reflexivity | lia].
Qed.

Lemma encode_utf8_ascii s : is_ascii s -> encode_utf8 s = encode_ascii s.
Proof.
  induction 1 as [|c rest Hc Hrest IH]; [reflexivity|].
  cbn [encode_utf8 encode_ascii].
  rewrite (utf8_char_ascii c Hc), IH.
  destruct (N.ltb_spec c 128); [|lia].
  destruct (encode_ascii rest); reflexivity.
Qed.

Lemma utf8_char_cases c :
  (c < 0x110000)%N ->
  (is_surrogate c /\ utf8_char c = Raise UnicodeEncodeError) \/
  (~ is_surrogate c /\
   exists b, utf8_char c = Ok b /\ List.length b = utf8_width c).
Proof.
  intros Hv. unfold utf8_char, utf8_width, is_surrogate.
  destruct (N.ltb_spec c 0x80).
  { right. split; [lia|]. eexists; split; reflexivity. }
  destruct (N.ltb_spec c 0x800).
  { right. split; [lia|]. eexists; split; reflexivity. }
  destruct (N.leb_spec 0xD800 c); destruct (N.ltb_spec c 0xE000); cbn [andb].
  { left. split; [lia | reflexivity]. }
  all: destruct (N.ltb_spec c 0x10000);
    [right; split; [lia|]; eexists; split; reflexivity|].
  all: destruct (N.ltb_spec c 0x110000); [|lia].
  all: right; split; [lia|]; eexists; split; reflexivity.
Qed.

Lemma encode_utf8_cases s :
  valid_text s ->
  (Exists is_surrogate s /\ encode_utf8 s = Raise UnicodeEncodeError) \/
  (Forall (fun c => ~ is_surrogate c) s /\
   exists b, encode_utf8 s = Ok b /\
             List.length b = list_sum (map utf8_width s)).
Proof.
  induction 1 as [|c rest Hc Hrest IH]; cbn [encode_utf8 map list_sum].
  - right. split; [constructor|]. exists []. split; reflexivity.
  - destruct (utf8_char_cases c Hc) as [(Hs & ->)|(Hns & b & -> & Hb)];
      cbn [bind].
    + left. split; [apply Exists_cons_hd; assumption | reflexivity].
    + destruct IH as [(Hex & ->)|(Hall & bs & -> & Hbs)]; cbn [bind].
      * left. split; [apply Exists_cons_tl; assumption | reflexivity].
      * right. split; [constructor; assumption|].
        exists (b ++ bs). split; [reflexivity|].
        rewrite length_app, Hb, Hbs. reflexivity.
Qed.

Lemma utf8_width_bounds s :
  (List.length s <= list_sum (map utf8_width s) <= 4 * List.length s)%nat.
Proof.
  induction s as [|c rest IH]; [cbn; lia|].
  cbn [List.length map].
  change (list_sum (utf8_width c :: map utf8_width rest))
    with (utf8_width c + list_sum (map utf8_width rest))%nat.
  assert (1 <= utf8_width c <= 4)%nat.
  { unfold utf8_width.
    destruct (_ <? _)%N; [lia|]. destruct (_ <? _)%N; [lia|].
    destruct (_ <? _)%N; lia. }
  lia.
Qed.

(** X19. On ASCII text the UTF-8 writers are the ASCII writers: the plain
    and the terminated variants have the same result on every writer. *)
Theorem utf8_write_of_ascii_text self s :
  is_ascii s ->
  write_utf8_string self s = write_ascii_string self s /\
  write_utf8_nt_string self s = write_ascii_nt_string self s.
Proof.
  intros Hs. unfold write_utf8_string, write_utf8_nt_string,
    write_ascii_string, write_ascii_nt_string.
  rewrite (encode_utf8_ascii s Hs). split; reflexivity.
Qed.

(** X20. On an open writer [write_utf8_string] raises
    [UnicodeEncodeError] exactly when the text has a surrogate code point
    (U+D800 to U+DFFF); every other text is written. *)
Theorem write_utf8_string_rejects_surrogates path e f s :
  closed f = false -> valid_text s ->
  (write_utf8_string (opened path e f) s = Raise UnicodeEncodeError
   <-> Exists is_surrogate s).
Proof.
  intros Hopen Hv. unfold write_utf8_string, fp_call.
  cbn [fp opened set_fp].
  destruct (encode_utf8_cases s Hv) as [(Hex & ->)|(Hall & b & -> & _)];
    cbn [bind].
  - split; [intros _; exact Hex | reflexivity].
  - unfold file_write. rewrite Hopen. cbn [bind]. split; [discriminate|].
    intros Hex. apply Exists_exists in Hex. destruct Hex as (c & Hin & Hc).
    rewrite Forall_forall in Hall. destruct (Hall c Hin Hc).
Qed.

(** X21. On an open writer, text without surrogates is stored by
    [write_utf8_string] as one to four bytes per code point: one below
    U+0080, two below U+0800, three below U+10000 and four above; the
    returned count is the sum of these widths. *)
Theorem write_utf8_string_count path e f s :
  closed f = false -> valid_text s ->
  Forall (fun c => ~ is_surrogate c) s ->
  exists b,
    emits (write_utf8_string (opened path e f) s) (opened path e f) b /\
    List.length b = list_sum (map utf8_width s) /\
    (List.length s <= List.length b <= 4 * List.length s)%nat.
Proof.
  intros Hopen Hv Hns.
  destruct (encode_utf8_cases s Hv) as [(Hex & _)|(_ & b & Henc & Hlen)].
  - exfalso. apply Exists_exists in Hex. destruct Hex as (c & Hin & Hc).
    rewrite Forall_forall in Hns. destruct (Hns c Hin Hc).
  - exists b. split; [|split].
    + unfold write_utf8_string. rewrite Henc.
      apply (fp_write_emits (opened path e f) f b eq_refl Hopen).
    + exact Hlen.
    + rewrite Hlen. apply utf8_width_bounds.
Qed.

Lemma write_ubyte_zero host path e h :
  write_ubyte host (set_fp (__init__ path e) h) 0
  = write (set_fp (__init__ path e) h) [Byte.x00].
Proof.
  change (write_ubyte host) with (call host UByte).
  apply call_as_write. destruct (e =? LITTLE_ENDIAN); reflexivity.
Qed.

Lemma then_zero_byte host path e h (arg : result bytes) :
  and_then (fp_call (set_fp (__init__ path e) h) arg file_write)
           (fun self' => write_ubyte host self' 0)
  = fp_call (set_fp (__init__ path e) h)
      (b <- arg ;; Ok (b ++ repeat Byte.x00 1)) file_write.
Proof.
  destruct arg as [b|x]; cbn [bind].
  - change (fp_call (set_fp (__init__ path e) h) (Ok (b ++ repeat Byte.x00 1))
              file_write)
      with (write (set_fp (__init__ path e) h) (b ++ [Byte.x00])).
    rewrite <- and_then_write. rewrite <- write_unfold.
    unfold and_then.
    destruct (write (set_fp (__init__ path e) h) b) as [[k self1]|] eqn:Hw;
      [|reflexivity].
    cbn [bind fst snd].
    destruct (fp_call_keeps_construction _ _ _ _ _ Hw) as (f1 & ->).
    rewrite set_fp_set_fp, write_ubyte_zero. reflexivity.
  - unfold and_then, fp_call. cbn [fp set_fp].
    destruct h; reflexivity.
Qed.

(** X22. A terminated string write is the plain string write followed by
    [write_ubyte(0)]: on every writer built by the constructor, in every
    state of the handle, the two have the same total count, the same writer
    afterwards and the same exception. *)
Theorem nt_string_is_string_then_zero_byte host path e h s :
  let self := set_fp (__init__ path e) h in
  and_then (write_ascii_string self s) (fun self' => write_ubyte host self' 0)
  = write_ascii_nt_string self s /\
  and_then (write_utf8_string self s) (fun self' => write_ubyte host self' 0)
  = write_utf8_nt_string self s.
Proof.
  intros self. subst self.
  unfold write_ascii_string, write_ascii_nt_string,
    write_utf8_string, write_utf8_nt_string.
  split; apply then_zero_byte.
Qed.

Lemma byte_of_N_zero c :
  byte_of_N c = Byte.x00 -> Z.of_N c mod 2 ^ 8 = 0.
Proof.
  intros H. apply (f_equal byte.unsigned) in H.
  unfold byte_of_N in H. rewrite byte.unsigned_of_Z in H. exact H.
Qed.

Lemma low_byte_zero c : (c < 0x80)%N -> byte_of_N c = Byte.x00 -> c = 0%N.
Proof.
  intros Hc H. apply byte_of_N_zero in H.
  rewrite Z.mod_small in H by (cbn; lia). lia.
Qed.

(** A byte with its top bit set is not zero. *)
Lemma high_byte_nonzero k x :
  N.testbit k 7 = true -> byte_of_N (N.lor k x) <> Byte.x00.
Proof.
  intros Hk H. apply byte_of_N_zero in H.
  assert (Hbit : Z.testbit (Z.of_N (N.lor k x) mod 2 ^ 8) 7 = true).
  { rewrite Z.mod_pow2_bits_low by lia.
    change 7 with (Z.of_N 7). rewrite Z.testbit_of_N.
    rewrite N.lor_spec, Hk. reflexivity. }
  rewrite H in Hbit. discriminate.
Qed.

Lemma Ok_inj {A} (a b : A) : Ok a = Ok b -> a = b.
Proof. intros H. injection H. auto. Qed.

Lemma utf8_char_zero c b :
  utf8_char c = Ok b -> (In Byte.x00 b <-> c = 0%N).
Proof.
  unfold utf8_char.
  destruct (N.ltb_spec c 0x80) as [Hlow|Hhigh].
  - intros H; apply Ok_inj in H; subst b. cbn [In]. split.
    + intros [H0|[]]. apply (low_byte_zero c Hlow H0).
    + intros ->. left. reflexivity.
  - assert (Hno : forall k x, N.testbit k 7 = true ->
                    byte_of_N (N.lor k x) = Byte.x00 -> False).
    { intros k x Hk H0. apply (high_byte_nonzero k x Hk H0). }
    destruct (c <? 0x800)%N.
    { intros H; apply Ok_inj in H; subst b. cbn [In]. split; [|lia].
      intros [H0|[H0|[]]]; exfalso; revert H0; apply Hno; reflexivity. }
    destruct ((0xD800 <=? c)%N && (c <? 0xE000)%N); [discriminate|].
    destruct (c <? 0x10000)%N.
    { intros H; apply Ok_inj in H; subst b. cbn [In]. split; [|lia].
      intros [H0|[H0|[H0|[]]]]; exfalso; revert H0; apply Hno; reflexivity. }
    destruct (c <? 0x110000)%N; [|discriminate].
    intros H; apply Ok_inj in H; subst b. cbn [In]. split; [|lia].
    intros [H0|[H0|[H0|[H0|[]]]]]; exfalso; revert H0; apply Hno; reflexivity.
Qed.

Lemma encode_utf8_zero s : forall b,
  encode_utf8 s = Ok b -> (In Byte.x00 b <-> In 0%N s).
Proof.
  induction s as [|c rest IH]; intros b; cbn [encode_utf8].
  - intros H; inversion H; subst. reflexivity.
  - destruct (utf8_char c) as [bc|] eqn:Hc; cbn [bind]; [|discriminate].
    destruct (encode_utf8 rest) as [bs|]; cbn [bind]; [|discriminate].
    intros H; inversion H; subst.
    rewrite in_app_iff, (utf8_char_zero c bc Hc), (IH bs eq_refl).
    cbn [In]. split; intros [H0|H0]; auto.
Qed.

Lemma encode_ascii_zero s : forall b,
  encode_ascii s = Ok b -> (In Byte.x00 b <-> In 0%N s).
Proof.
  induction s as [|c rest IH]; intros b; cbn [encode_ascii].
  - intros H; inversion H; subst. reflexivity.
  - destruct (N.ltb_spec c 128) as [Hc|Hc]; [|discriminate].
    destruct (encode_ascii rest) as [bs|]; cbn [bind]; [|discriminate].
    intros H; inversion H; subst. cbn [In]. rewrite (IH bs eq_refl).
    split; intros [H0|H0]; auto.
    + left. apply (low_byte_zero c Hc H0).
    + left. subst c. reflexivity.
Qed.

(** X23. The terminated writers do not guard the terminator: on an open
    writer they store the encoded text followed by one zero byte, and the
    encoded text itself contains a zero byte exactly when the text has the
    code point U+0000. Text without it is followed by the only zero byte
    written. *)
Theorem nt_terminator_unique_iff_no_nul path e f s :
  closed f = false ->
  let self := opened path e f in
  (forall payload, encode_ascii s = Ok payload ->
     emits (write_ascii_nt_string self s) self (payload ++ [Byte.x00]) /\
     (In Byte.x00 payload <-> In 0%N s)) /\
  (forall payload, encode_utf8 s = Ok payload ->
     emits (write_utf8_nt_string self s) self (payload ++ [Byte.x00]) /\
     (In Byte.x00 payload <-> In 0%N s)).
Proof.
  intros Hopen self. split; intros payload Henc; split.
  - unfold write_ascii_nt_string. rewrite Henc.
    apply (fp_write_emits self f _ eq_refl Hopen).
  - apply (encode_ascii_zero s payload Henc).
  - unfold write_utf8_nt_string. rewrite Henc.
    apply (fp_write_emits self f _ eq_refl Hopen).
  - apply (encode_utf8_zero s payload Henc).
Qed.

(** X24. Closing twice is harmless: [close] succeeds on a writer whose
    file is open or already closed, keeps the bytes and the cursor, and a
    second [close] (or leaving a scope after an explicit close) returns
    the same writer without raising. *)
Theorem close_twice_is_close path e f :
  close (opened path e f) = Ok (tt, opened path e (closed_file f)) /\
  (r <- close (opened path e f) ;; close (snd r)) = close (opened path e f) /\
  (r <- close (opened path e f) ;; __exit__ (snd r)) = close (opened path e f) /\
  content (closed_file f) = content f /\
  position (closed_file f) = position f.
Proof. repeat split. Qed.

(** ** Concrete runs of the further properties *)

Lemma write_stores_bytes_witness :
  fp (opened "out.bin" 0 sample_file) = Some sample_file /\
  closed sample_file = false /\
  emits (write (opened "out.bin" 0 sample_file) [Byte.xaa; Byte.xbb; Byte.xcc])
        (opened "out.bin" 0 sample_file) [Byte.xaa; Byte.xbb; Byte.xcc].
Proof.
  split; [reflexivity|]. split; [reflexivity|].
  exact (proj1 (write_stores_bytes (opened "out.bin" 0 sample_file) sample_file
                  [Byte.xaa; Byte.xbb; Byte.xcc] eq_refl eq_refl)).
Defined.

Lemma numeric_out_of_range_raises_witness :
  (300 < int_min (declared_width Byte_) (declared_signed Byte_) \/
   int_max (declared_width Byte_) (declared_signed Byte_) < 300) /\
  call lp64 Byte_ (set_fp (__init__ "out.bin" 0) (Some sample_file)) 300
  = Raise StructError.
Proof.
  assert (H : 300 < int_min (declared_width Byte_) (declared_signed Byte_) \/
              int_max (declared_width Byte_) (declared_signed Byte_) < 300)
    by (right; reflexivity).
  split; [exact H|].
  exact (numeric_out_of_range_raises lp64 Byte_ "out.bin" 0
           (Some sample_file) 300 H).
Defined.

Lemma signed_write_is_unsigned_write_of_residue_witness :
  int_min (declared_width Byte_) (declared_signed Byte_) <= -1
    <= int_max (declared_width Byte_) (declared_signed Byte_) /\
  write_byte lp64 (set_fp (__init__ "out.bin" 0) (Some sample_file)) (-1)
  = write_ubyte lp64 (set_fp (__init__ "out.bin" 0) (Some sample_file)) 255.
Proof.
  assert (H : int_min (declared_width Byte_) (declared_signed Byte_) <= -1
              <= int_max (declared_width Byte_) (declared_signed Byte_))
    by (cbn; lia).
  split; [exact H|].
  exact (signed_write_is_unsigned_write_of_residue lp64 Byte_ "out.bin" 0
           (Some sample_file) (-1) H).
Defined.

Lemma big_endian_reverses_little_endian_witness :
  closed sample_file = false /\
  int_min (declared_width Int) (declared_signed Int) <= 0x01020304
    <= int_max (declared_width Int) (declared_signed Int) /\
  exists b,
    emits (call lp64 Int (opened "out.bin" LITTLE_ENDIAN sample_file) 0x01020304)
          (opened "out.bin" LITTLE_ENDIAN sample_file) b /\
    emits (call lp64 Int (opened "out.bin" BIG_ENDIAN sample_file) 0x01020304)
          (opened "out.bin" BIG_ENDIAN sample_file) (rev b).
Proof.
  assert (H : int_min (declared_width Int) (declared_signed Int) <= 0x01020304
              <= int_max (declared_width Int) (declared_signed Int))
    by (cbn; lia).
  split; [reflexivity|]. split; [exact H|].
  destruct (big_endian_reverses_little_endian lp64 Int "out.bin" sample_file
              0x01020304 eq_refl H) as (b & Hle & Hbe & _).
  exists b. split; assumption.
Defined.

Lemma numeric_writes_are_contiguous_witness :
  closed sample_file = false /\
  int_min (declared_width Byte_) (declared_signed Byte_) <= 1
    <= int_max (declared_width Byte_) (declared_signed Byte_) /\
  int_min (declared_width Int) (declared_signed Int) <= 2
    <= int_max (declared_width Int) (declared_signed Int) /\
  exists b1 b2,
    emits (and_then (call lp64 Byte_ (opened "out.bin" 0 sample_file) 1)
                    (fun self' => call lp64 Int self' 2))
          (opened "out.bin" 0 sample_file) (b1 ++ b2) /\
    List.length b1 = 1%nat /\ List.length b2 = 4%nat.
Proof.
  assert (H1 : int_min (declared_width Byte_) (declared_signed Byte_) <= 1
               <= int_max (declared_width Byte_) (declared_signed Byte_))
    by (cbn; lia).
  assert (H2 : int_min (declared_width Int) (declared_signed Int) <= 2
               <= int_max (declared_width Int) (declared_signed Int))
    by (cbn; lia).
  split; [reflexivity|]. split; [exact H1|]. split; [exact H2|].
  destruct (numeric_writes_are_contiguous lp64 Byte_ Int "out.bin" 0
              sample_file 1 2 eq_refl H1 H2) as (b1 & b2 & He & Hl1 & Hl2 & _).
  exists b1, b2. repeat split; assumption.
Defined.

Lemma reopen_starts_empty_witness :
  closed sample_file = false /\
  (r1 <- write (opened "out.bin" 0 sample_file) [Byte.xaa] ;;
   r2 <- close (snd r1) ;;
   r3 <- open lp64 (snd r2) ;;
   Ok (fst r3))
  = Ok (opened "out.bin" 0 fresh_file).
Proof.
  split; [reflexivity|].
  exact (reopen_starts_empty lp64 "out.bin" 0 sample_file [Byte.xaa] eq_refl).
Defined.

Lemma scoped_write_leaves_closed_file_witness :
  creatable lp64 "out.bin" = true /\
  (r0 <- __enter__ lp64 (__init__ "out.bin" 0) ;;
   r1 <- write (fst r0) [Byte.xaa; Byte.xbb] ;;
   r2 <- __exit__ (snd r1) ;;
   Ok (fst r1, fp (snd r2)))
  = Ok (2, Some {| content := [Byte.xaa; Byte.xbb]; position := 2;
                   closed := true |}).
Proof.
  split; [reflexivity|].
  exact (scoped_write_leaves_closed_file lp64 "out.bin" 0
           [Byte.xaa; Byte.xbb] eq_refl).
Defined.

Lemma seek_keeps_content_witness :
  seek lp64 (opened "out.bin" 0 sample_file) 2 SEEK_END
  = Ok (5, set_fp (opened "out.bin" 0 sample_file)
             (Some {| content := [Byte.x01; Byte.x02; Byte.x03];
                      position := 5; closed := false |})) /\
  exists f f',
    fp (opened "out.bin" 0 sample_file) = Some f /\ closed f = false /\
    set_fp (opened "out.bin" 0 sample_file)
      (Some {| content := [Byte.x01; Byte.x02; Byte.x03];
               position := 5; closed := false |})
    = set_fp (opened "out.bin" 0 sample_file) (Some f') /\
    content f' = content f /\ closed f' = false /\
    5 = Z.of_nat (position f').
Proof.
  split; [reflexivity|].
  exact (seek_keeps_content lp64 (opened "out.bin" 0 sample_file) 2 SEEK_END 5
           (set_fp (opened "out.bin" 0 sample_file)
              (Some {| content := [Byte.x01; Byte.x02; Byte.x03];
                       position := 5; closed := false |}))
           eq_refl).
Defined.

Lemma rewind_then_write_overwrites_witness :
  fp (opened "out.bin" 0 sample_file) = Some sample_file /\
  closed sample_file = false /\
  outcome (r <- seek lp64 (opened "out.bin" 0 sample_file) 0 SEEK_BEGINNING ;;
           write (snd r) [Byte.xaa; Byte.xbb])
  = Ok (2, Some {| content := [Byte.xaa; Byte.xbb; Byte.x03];
                   position := 2; closed := false |}).
Proof.
  split; [reflexivity|]. split; [reflexivity|].
  exact (rewind_then_write_overwrites lp64 (opened "out.bin" 0 sample_file)
           sample_file [Byte.xaa; Byte.xbb] eq_refl eq_refl).
Defined.

Lemma seek_end_then_write_appends_witness :
  fp (opened "out.bin" 0 sample_file) = Some sample_file /\
  closed sample_file = false /\
  outcome (r <- seek lp64 (opened "out.bin" 0 sample_file) 0 SEEK_END ;;
           write (snd r) [Byte.xaa; Byte.xbb])
  = Ok (2, Some {| content := [Byte.x01; Byte.x02; Byte.x03; Byte.xaa; Byte.xbb];
                   position := 5; closed := false |}).
Proof.
  split; [reflexivity|]. split; [reflexivity|].
  exact (seek_end_then_write_appends lp64 (opened "out.bin" 0 sample_file)
           sample_file [Byte.xaa; Byte.xbb] eq_refl eq_refl).
Defined.

Lemma skip_then_numeric_write_position_witness :
  closed sample_file = false /\
  fits_off_t 4 = true /\
  0 <= Z.of_nat (position sample_file) + 4 /\
  Z.of_nat (position sample_file) + 4 + Z.of_nat (declared_width Byte_)
    <= offset_limit lp64 sample_file /\
  int_min (declared_width Byte_) (declared_signed Byte_) <= 1
    <= int_max (declared_width Byte_) (declared_signed Byte_) /\
  exists f',
    (r <- skip lp64 (opened "out.bin" 0 sample_file) 4 ;;
     write_byte lp64 (snd r) 1)
    = Ok (1, opened "out.bin" 0 f') /\
    closed f' = false /\
    Z.of_nat (position f') = Z.of_nat (position sample_file) + 5.
Proof.
  assert (Hp : 0 <= Z.of_nat (position sample_file) + 4) by (cbn; lia).
  assert (He : Z.of_nat (position sample_file) + 4
               + Z.of_nat (declared_width Byte_)
               <= offset_limit lp64 sample_file)
    by (apply Z.leb_le; vm_compute; reflexivity).
  assert (Hr : int_min (declared_width Byte_) (declared_signed Byte_) <= 1
               <= int_max (declared_width Byte_) (declared_signed Byte_))
    by (cbn; lia).
  split; [reflexivity|]. split; [reflexivity|]. split; [exact Hp|].
  split; [exact He|]. split; [exact Hr|].
  exact (skip_then_numeric_write_position lp64 Byte_ "out.bin" 0 sample_file
           4 1 eq_refl eq_refl Hp He Hr).
Defined.

Lemma skip_skip_is_skip_sum_witness :
  fp (opened "out.bin" 0 sample_file) = Some sample_file /\
  closed sample_file = false /\
  fits_off_t 4 = true /\ fits_off_t (-3) = true /\
  fits_off_t (4 + -3) = true /\
  0 <= Z.of_nat (position sample_file) + 4 <= offset_limit lp64 sample_file /\
  (r <- skip lp64 (opened "out.bin" 0 sample_file) 4 ;;
   skip lp64 (snd r) (-3))
  = skip lp64 (opened "out.bin" 0 sample_file) (4 + -3).
Proof.
  assert (Hp : 0 <= Z.of_nat (position sample_file) + 4
               <= offset_limit lp64 sample_file).
  { split; apply Z.leb_le; vm_compute; reflexivity. }
  split; [reflexivity|]. split; [reflexivity|]. split; [reflexivity|].
  split; [reflexivity|]. split; [reflexivity|]. split; [exact Hp|].
  exact (skip_skip_is_skip_sum lp64 (opened "out.bin" 0 sample_file)
           sample_file 4 (-3) eq_refl eq_refl eq_refl eq_refl eq_refl Hp).
Defined.

Lemma session_keeps_path_and_endianness_witness :
  exec_all lp64
    [Open; Numeric UShort 0x1234; Skip 2;
     AsciiString (text_of_string "AB"); Close]
    (__init__ "out.bin" BIG_ENDIAN)
  = Ok (opened "out.bin" BIG_ENDIAN
          {| content := [Byte.x12; Byte.x34; Byte.x00; Byte.x00;
                         Byte.x41; Byte.x42];
             position := 6; closed := true |}) /\
  output_path (opened "out.bin" BIG_ENDIAN
                 {| content := [Byte.x12; Byte.x34; Byte.x00; Byte.x00;
                                Byte.x41; Byte.x42];
                    position := 6; closed := true |}) = "out.bin"%string /\
  endian (opened "out.bin" BIG_ENDIAN
            {| content := [Byte.x12; Byte.x34; Byte.x00; Byte.x00;
                           Byte.x41; Byte.x42];
               position := 6; closed := true |}) = ">"%string.
Proof.
  assert (H : exec_all lp64
                [Open; Numeric UShort 0x1234; Skip 2;
                 AsciiString (text_of_string "AB"); Close]
                (__init__ "out.bin" BIG_ENDIAN)
              = Ok (opened "out.bin" BIG_ENDIAN
                      {| content := [Byte.x12; Byte.x34; Byte.x00; Byte.x00;
                                     Byte.x41; Byte.x42];
                         position := 6; closed := true |}))
    by (vm_compute; reflexivity).
  split; [exact H|].
  destruct (session_keeps_path_and_endianness lp64 _ _ _ H) as (Hp & He & _).
  split; [exact Hp | exact He].
Defined.

Lemma session_never_shortens_file_witness :
  fp (opened "out.bin" 0 sample_file) = Some sample_file /\
  existsb is_open_command
    [RawWrite [Byte.xaa]; Seek 0 SEEK_BEGINNING; RawWrite [Byte.xbb]; Close]
  = false /\
  exec_all lp64
    [RawWrite [Byte.xaa]; Seek 0 SEEK_BEGINNING; RawWrite [Byte.xbb]; Close]
    (opened "out.bin" 0 sample_file)
  = Ok (opened "out.bin" 0
          {| content := [Byte.xbb; Byte.xaa; Byte.x03];
             position := 1; closed := true |}) /\
  exists f',
    fp (opened "out.bin" 0
          {| content := [Byte.xbb; Byte.xaa; Byte.x03];
             position := 1; closed := true |}) = Some f' /\
    (List.length (content sample_file) <= List.length (content f'))%nat.
Proof.
  assert (H : exec_all lp64
                [RawWrite [Byte.xaa]; Seek 0 SEEK_BEGINNING;
                 RawWrite [Byte.xbb]; Close]
                (opened "out.bin" 0 sample_file)
              = Ok (opened "out.bin" 0
                      {| content := [Byte.xbb; Byte.xaa; Byte.x03];
                         position := 1; closed := true |}))
    by (vm_compute; reflexivity).
  split; [reflexivity|]. split; [reflexivity|]. split; [exact H|].
  exact (session_never_shortens_file lp64
           [RawWrite [Byte.xaa]; Seek 0 SEEK_BEGINNING;
            RawWrite [Byte.xbb]; Close]
           (opened "out.bin" 0 sample_file) sample_file
           (opened "out.bin" 0
              {| content := [Byte.xbb; Byte.xaa; Byte.x03];
                 position := 1; closed := true |})
           eq_refl eq_refl H).
Defined.

Lemma closed_stream_only_accepts_close_witness :
  closed (closed_file sample_file) = true /\
  existsb is_open_command [Close; Close] = false /\
  exec_all lp64 [Close; Close] (opened "out.bin" 0 (closed_file sample_file))
  = Ok (opened "out.bin" 0 (closed_file sample_file)) /\
  forallb is_close_command [Close; Close] = true.
Proof.
  split; [reflexivity|]. split; [reflexivity|]. split; [reflexivity|].
  exact (proj1 (closed_stream_only_accepts_close lp64 [Close; Close] "out.bin" 0
                  (closed_file sample_file) _ eq_refl eq_refl eq_refl)).
Defined.

Lemma utf8_write_of_ascii_text_witness :
  is_ascii (text_of_string "AB") /\
  write_utf8_string (opened "out.bin" 0 sample_file) (text_of_string "AB")
  = write_ascii_string (opened "out.bin" 0 sample_file) (text_of_string "AB").
Proof.
  assert (H : is_ascii (text_of_string "AB")) by (repeat constructor).
  split; [exact H|].
  exact (proj1 (utf8_write_of_ascii_text (opened "out.bin" 0 sample_file)
                  (text_of_string "AB") H)).
Defined.

Lemma write_utf8_string_rejects_surrogates_witness :
  closed sample_file = false /\
  valid_text [0x61; 0xD800]%N /\
  Exists is_surrogate [0x61; 0xD800]%N /\
  write_utf8_string (opened "out.bin" 0 sample_file) [0x61; 0xD800]%N
  = Raise UnicodeEncodeError.
Proof.
  assert (Hv : valid_text [0x61; 0xD800]%N) by (repeat constructor).
  assert (Hs : Exists is_surrogate [0x61; 0xD800]%N).
  { apply Exists_cons_tl, Exists_cons_hd. unfold is_surrogate. lia. }
  split; [reflexivity|]. split; [exact Hv|]. split; [exact Hs|].
  exact (proj2 (write_utf8_string_rejects_surrogates "out.bin" 0 sample_file
                  [0x61; 0xD800]%N eq_refl Hv) Hs).
Defined.

Lemma write_utf8_string_count_witness :
  closed sample_file = false /\
  valid_text cafe /\
  Forall (fun c => ~ is_surrogate c) cafe /\
  exists b,
    emits (write_utf8_string (opened "out.bin" 0 sample_file) cafe)
          (opened "out.bin" 0 sample_file) b /\
    List.length b = 5%nat.
Proof.
  assert (Hv : valid_text cafe) by (repeat constructor).
  assert (Hn : Forall (fun c => ~ is_surrogate c) cafe).
  { change cafe with [99; 97; 102; 233]%N.
    repeat (constructor; [unfold is_surrogate; lia|]). constructor. }
  split; [reflexivity|]. split; [exact Hv|]. split; [exact Hn|].
  destruct (write_utf8_string_count "out.bin" 0 sample_file cafe eq_refl Hv Hn)
    as (b & He & Hl & _).
  exists b. split; [exact He | exact Hl].
Defined.

Lemma nt_terminator_unique_iff_no_nul_witness :
  closed sample_file = false /\
  emits (write_utf8_nt_string (opened "out.bin" 0 sample_file) cafe)
        (opened "out.bin" 0 sample_file)
        ([Byte.x63; Byte.x61; Byte.x66; Byte.xc3; Byte.xa9] ++ [Byte.x00]) /\
  (In Byte.x00 [Byte.x63; Byte.x61; Byte.x66; Byte.xc3; Byte.xa9]
   <-> In 0%N cafe).
Proof.
  split; [reflexivity|].
  destruct (nt_terminator_unique_iff_no_nul "out.bin" 0 sample_file cafe eq_refl)
    as (_ & Hu).
  exact (Hu [Byte.x63; Byte.x61; Byte.x66; Byte.xc3; Byte.xa9] eq_refl).
Defined.
